(* ===== verification/_CoqProject ===== *)
-Q . S2P
Prelude.v
Avr.v
PinsArduino.v
Macros.v
MacroText.v
MacroSyntax.v
Hal.v
