(* ===== verification/Prelude.v ===== *)
(** * Verification of the Cestino ATmega1284P pin map

    This development models [src/Cestino_Hardware/avr/variants/cestino/pins_arduino.h],
    the "variant" header of the Cestino board for the Arduino AVR core. The
    header has no loops and no mutable state. It is a compile-time table that
    the core's hardware abstraction layer (HAL) reads. The HAL is
    [pinMode], [digitalWrite], [digitalRead], [analogRead], the SPI and Wire
    libraries, and pin-change interrupt users such as SoftwareSerial. The
    header supplies:

    - the board constants [NUM_DIGITAL_PINS], [NUM_ANALOG_INPUTS], [SS], [MOSI],
      [MISO], [SCK], [SDA], [SCL], [LED] and [A0] .. [A7] (lines 70-103);
    - six function-like macros on a pin number [p]: [analogInputToDigitalPin],
      [digitalPinHasPWM], [digitalPinToPCICR], [digitalPinToPCICRbit],
      [digitalPinToPCMSK] and [digitalPinToPCMSKbit] (lines 72-117);
    - under [ARDUINO_MAIN], the port codes [PA] .. [PD] and six PROGMEM arrays.
      [port_to_mode_PGM], [port_to_output_PGM] and [port_to_input_PGM] are
      indexed by a port code. [digital_pin_to_port_PGM],
      [digital_pin_to_bit_mask_PGM] and [digital_pin_to_timer_PGM] are indexed
      by a digital pin number (lines 120-288).

    The HAL combines them. For pin [p] it reads [digital_pin_to_port_PGM[p]],
    uses the port code as an index into the [port_to_*_PGM] arrays to get a
    register address, and uses [digital_pin_to_bit_mask_PGM[p]] as the bit
    inside that register. The header's own comments give the abstract
    contract: the DIP-40 pinout diagram (lines 8-29) and the digital-pin/PCINT
    table (lines 32-68).

    ** Files, in dependency order
    - [Prelude] (this file): the [pin_scope] notations and the C integer
      conversions [is_uint8], [u8], [u16]. It also holds [_BV] and its bit
      lemmas, the C range test [between], [bits_of] (a byte assembled from
      bit values), [fupd], and the hint databases [pins] and [pins_rw]. The
      lemma [Zrange_decide] and the tactics [range_decide_at] /
      [range_decide_at2] prove a property of every pin (or pair of pins) by
      evaluating it over the finite pin range.
    - [Avr]: what the header names but does not define. From avr-libc's
      [iom1284p.h] and the ATmega1284P data sheet it takes the ports
      ([Port]), the I/O registers and their data-space addresses ([IoReg],
      [io_addr]), the pin-change groups ([pcint_group], [pcint_number]), the
      timer output-compare pins ([oc_pin]), the ADC inputs ([adc_pin]) and
      the SPI/TWI pins. From the core's [Arduino.h] it takes the sentinels
      and timer codes ([NOT_A_PIN], [NOT_A_PORT], [NOT_ON_TIMER], [TIMER0A],
      ...). None of it models code of the repository. It is the environment
      the header is checked against.
    - [PinsArduino]: the constants, the port codes and the six arrays,
      transcribed entry by entry as [list Z]. [pgm_read t i] is
      [pgm_read_byte(t + i)] / [pgm_read_word(t + i)], with [None] for a read
      outside the array. [pin_gpio] is the lookup the HAL performs: port code,
      then mask, then the I/O line. Module [Diagram] holds the header's
      specification comments ([pinout_diagram], [diagram_gpio],
      [pcint_comment_table]).
    - [Macros]: the macros of lines 72-117 over C values ([cval]: [int],
      pointer to a register, null). Relational and logical operators yield
      [int] 0/1, and [?:] selects, in the nesting of the source text. So the
      model keeps the types the macros really have.
    - [MacroText]: the six replacement lists of lines 72-117 as strings that
      keep every source character (tabs, backslash continuations, the space
      after the backslash of line 109), a C [token] type, and [lex], which
      splices backslash-newline as GCC does and groups characters into
      numbers, identifiers and punctuators.
    - [MacroSyntax]: what a compiler makes of that text. [expand]
      substitutes the argument's tokens for [p] and the values of
      [NUM_ANALOG_INPUTS] / [NUM_DIGITAL_PINS]. [parse] is a
      precedence-climbing parser for the C expressions the macros use
      ([?:], [||], [&&], [&], [==], relations, [+], [-], unary [-] and [&],
      the cast [(uint8_t * )], calls, parentheses). [eval] computes an
      expression's [cval], with [&&], [||] and [?:] lazy as in C.
      [macro_call text arg env] is the value of [NAME(arg)].
    - [Hal]: the client. The class [PinVariant] is the interface the core
      reads through, with the names of [Arduino.h] ([digitalPinToPort],
      [digitalPinToBitMask], [digitalPinToTimer], [portModeRegister],
      [portOutputRegister], [portInputRegister]) and [pin_line], the meaning
      of each pin. [PinVariantOk] holds the laws the core relies on.
      [pinMode], [digitalWrite] and [digitalRead] follow wiring_digital.c
      statement by statement on an explicit hardware state [hw]: a register
      file as [gmap], the connected PWM channels, the outside levels and the
      timer waveforms. [line_view] and [spec_pinMode] / [spec_digitalWrite]
      / [spec_digitalRead] are the abstract per-line contract. The
      refinement lemmas are proved against the laws only. Module [Cestino]
      instantiates the interface with the arrays and discharges the laws.

    ** What the theorems show (claims C1-C29)
    - C1-C3, refinement and bijection. For every integer [p],
      [pin_gpio p = diagram_gpio p]: the arrays implement the pinout
      diagram. The valid pins map one-to-one onto the 32 port bits.
    - C4-C8, C13, the arrays' shape. Every mask is one-hot or [NOT_A_PIN].
      The pins with a line are exactly 1-8, 14-29 and 33-40. The three
      per-pin arrays are defined exactly on [0 .. NUM_DIGITAL_PINS] and agree
      on their sentinels. The port arrays give each port its DDR/PORT/PIN
      address with no loss in the [uint16_t] cast. Every initializer fits its
      element type.
    - C9-C12, C14, timers, comments and fixed pins. The timer array puts
      exactly the chip's output-compare pins on their channels and routes
      every channel. It agrees with [digitalPinHasPWM]. The PCINT comment
      table agrees with the arrays. [SS], [MOSI], [MISO], [SCK], [SCL] and
      [SDA] are the chip's SPI and TWI pins.
    - C15-C21, the macros. [analogInputToDigitalPin] maps input [a] to pin
      [PAa]. Out of range it gives no pin, but it returns [-1] only for
      [a >= 8]. A negative [a] gives [40 - a], and below -32727 the
      subtraction overflows the 16-bit [int]. [A0] .. [A7] are channel numbers plus 24, not digital pins.
      [digitalPinToPCICR] is an [int] flag, never [&PCICR].
      [digitalPinToPCICRbit] and [digitalPinToPCMSKbit] are right on every
      valid pin and out of range on the others.
    - C22-C26, the core on this board. With the Cestino tables, [pinMode],
      [digitalWrite] and [digitalRead] refine their per-line contract and
      touch no other line. A written value reads back, and an input reads
      the outside level.
    - C27-C29, the macro text. Line 116 opens one parenthesis more than it
      closes and has a [:] without [?], so it does not parse. Whatever
      completes its last branch, its three other branches give every pin the
      mask register of another pin-change group. [analogInputToDigitalPin]
      leaves [p] bare in its test, so an argument [ch & 7] is tested as
      [ch & 1].

    ** Bounds and fuel
    The header itself does not loop. Pin numbers are [Z] because the
    macros compute on [int] after promotion and the core passes [uint8_t]
    pins. An avr-gcc [int] has 16 bits. Signed overflow is undefined in C,
    so [Macros.int_res] gives it no value. [analogInputToDigitalPin] and
    the [+], [-] and unary [-] of [MacroSyntax.eval] go through [int_res].
    The subtractions of [digitalPinToPCMSKbit] are stated only on pins
    0-40, where they cannot overflow. Register values are bytes: every compound assignment goes through
    [u8]. Properties of all pins split [Z] into the part below 0, the part
    above 40 (both outside the arrays, by [pgm_read_None]) and the range
    0-40, which [range_decide_at] checks by [vm_compute]. Properties of all
    timer codes use the range 1-10 outside which [oc_pin] is [None]. The
    lexer and the parser run on fuel. [lex] gets one round per character
    plus one, and every round consumes a character. [parse] gets
    [4 * length + 4] rounds. Every nested call either consumes a token or is
    one of at most three calls per consumed token ([p_cond] to [p_bin] to
    [p_unary]). For the texts of the header, the theorems evaluate [lex]
    and [parse] and so show that the fuel suffices there. The parser covers
    every construct of the six macros. What it rejects in line 116, a [:]
    with no [?] and an unclosed parenthesis, C's grammar rejects as well.

    ** Not modelled, and the plan
    - The preprocessor is modelled for the macros' needs only: one
      parameter, no [#] or [##], and no rescanning of the argument. A
      general theorem that [parse] needs no more than its fuel, and a
      printer with a parse/print round trip, are planned.
    - Interrupts: wiring_digital.c wraps each read-modify-write in
      [cli()] / [SREG = oldSREG]. The model runs each operation atomically.
      The plan is to add an interrupt step between the read and the write
      and show that the lost update it allows is excluded by [cli].
    - [analogWrite], the ADC, [turnOffPWM]'s TCCRnA bits (modelled by the
      set of connected channels) and the per-entry comments of the timer
      array are not modelled. The include guard and [#include] lines have no
      behaviour.
*)

From stdpp Require Import base list numbers decidable.
From Stdlib Require Import ZArith Lia.

Declare Scope pin_scope.
Delimit Scope pin_scope with pin.
Open Scope Z_scope.

Create HintDb pins.
Create Rewrite HintDb pins_rw.

(** ** C integer types *)

(** [uint8_t] and [uint16_t] value ranges. *)
Definition is_uint8 (z : Z) : bool := (0 <=? z) && (z <? 256).
Definition is_uint16 (z : Z) : bool := (0 <=? z) && (z <? 65536).

(** Conversion to [uint16_t], as in the casts [(uint16_t) &DDRA]. *)
Definition u16 (z : Z) : Z := z mod 65536.

(** [_BV(n)] of avr/sfr_defs.h: [(1 << (n))]. *)
Definition _BV (n : Z) : Z := Z.shiftl 1 n.

(** The C range test [(p)>=lo && (p)<=hi] as a boolean. *)
Definition between (lo hi p : Z) : bool := (lo <=? p) && (p <=? hi).

Notation "lo <=[ p ]<= hi" := (between lo hi p)
  (at level 70, p at next level) : pin_scope.

(** ** Generic lemmas *)

Lemma between_spec lo hi p : between lo hi p = true <-> lo <= p <= hi.
Proof. unfold between. rewrite andb_true_iff, !Z.leb_le. done. Qed.

Lemma between_false lo hi p : between lo hi p = false <-> p < lo \/ hi < p.
Proof.
  unfold between. rewrite andb_false_iff, !Z.leb_gt. lia.
Qed.

Lemma _BV_pow n : 0 <= n -> _BV n = 2 ^ n.
Proof. intros Hn. unfold _BV. by rewrite Z.shiftl_1_l. Qed.

Lemma _BV_testbit n j : 0 <= n -> Z.testbit (_BV n) j = (n =? j).
Proof. intros Hn. rewrite _BV_pow by done. by apply Z.pow2_bits_eqb. Qed.

Lemma _BV_uint8 n : 0 <= n < 8 -> is_uint8 (_BV n) = true.
Proof.
  intros Hn. rewrite _BV_pow by lia. unfold is_uint8.
  apply andb_true_iff; rewrite Z.leb_le, Z.ltb_lt. split.
  - apply Z.pow_nonneg; lia.
  - apply (Z.lt_le_trans _ (2 ^ 8)); [apply Z.pow_lt_mono_r|]; lia.
Qed.

Lemma _BV_inj n m : 0 <= n -> 0 <= m -> _BV n = _BV m -> n = m.
Proof.
  intros Hn Hm Heq. apply Z.eqb_eq.
  rewrite <- (_BV_testbit n m Hn), Heq, _BV_testbit by done.
  apply Z.eqb_refl.
Qed.

Lemma u16_small z : is_uint16 z = true -> u16 z = z.
Proof.
  unfold is_uint16, u16. rewrite andb_true_iff, Z.leb_le, Z.ltb_lt.
  intros. by apply Z.mod_small.
Qed.

#[export] Hint Resolve _BV_uint8 u16_small : pins.
#[export] Hint Rewrite between_spec _BV_testbit using lia : pins_rw.

(** ** Deciding a property of every pin by evaluation

    A decidable property of the integers in [lo .. hi] holds when the boolean
    test of [Forall] over [seqZ] evaluates to [true]. *)

Lemma Zrange_decide (P : Z -> Prop) `{!forall x, Decision (P x)} lo hi :
  bool_decide (Forall P (seqZ lo (hi - lo + 1))) = true ->
  forall x, lo <= x <= hi -> P x.
Proof.
  intros Hb x Hx. apply bool_decide_eq_true_1 in Hb.
  rewrite Forall_seqZ in Hb. apply Hb. lia.
Qed.

(** The two-variable version, for relations between two pins. *)
Lemma Zrange_decide2 (P : Z -> Z -> Prop) `{!forall x y, Decision (P x y)} lo hi :
  bool_decide (Forall (fun x => Forall (P x) (seqZ lo (hi - lo + 1)))
                      (seqZ lo (hi - lo + 1))) = true ->
  forall x y, lo <= x <= hi -> lo <= y <= hi -> P x y.
Proof.
  intros Hb x y Hx Hy. apply bool_decide_eq_true_1 in Hb.
  rewrite Forall_seqZ in Hb. specialize (Hb x ltac:(lia)).
  rewrite Forall_seqZ in Hb. apply Hb. lia.
Qed.

(** [range_decide_at x lo hi] proves a goal [P x] about the single variable
    [x] once [lo <= x <= hi] follows from the context by [lia]: it abstracts
    the goal over [x] with [pattern] and evaluates [P] on the whole range. *)
Ltac range_decide_at x lo hi :=
  let Hx := fresh "Hx" in
  assert (Hx : lo <= x <= hi) by lia;
  clear - Hx; pattern x; revert x Hx;
  apply (Zrange_decide _ lo hi); vm_compute; reflexivity.

(** The same for a goal [P x y] about two variables. *)
Ltac range_decide_at2 x y lo hi :=
  let Hx := fresh "Hx" in
  let Hy := fresh "Hy" in
  assert (Hx : lo <= x <= hi) by lia;
  assert (Hy : lo <= y <= hi) by lia;
  clear - Hx Hy; pattern x, y; revert x y Hx Hy;
  apply (Zrange_decide2 _ lo hi); vm_compute; reflexivity.

(** ** Options *)

(** A read that yields a value other than [v]. *)
Lemma Some_ne_iff {A} (o : option A) (v : A) :
  (exists x, o = Some x /\ x <> v) <-> is_Some o /\ o <> Some v.
Proof.
  split.
  - intros (x & -> & Hx). split; [eauto | congruence].
  - intros [[x ->] Hx]. exists x. split; [done | congruence].
Qed.

(** The image of a value under [f] read back from a decided disjunction. *)
Lemma option_fmap_Some_eq {A B} (o : option A) (f : A -> B) (b : B) (a : A) :
  o = Some a -> o = None \/ f <$> o = Some b -> b = f a.
Proof. intros -> [Hn | Hf]; [done|]. simpl in Hf. congruence. Qed.

Lemma between_out lo hi p : p < lo \/ hi < p -> between lo hi p = false.
Proof. intros. apply between_false. lia. Qed.

(** ** Assembling a byte from bit values *)

(** The integer whose bit [b] is set for each [b] of [l] with [f b]. *)
Definition bits_of (f : Z -> bool) (l : list Z) : Z :=
  foldr (fun b acc => if f b then Z.lor (_BV b) acc else acc) 0 l.

Lemma bits_of_testbit f l j :
  Forall (fun b => 0 <= b) l ->
  Z.testbit (bits_of f l) j = existsb (fun b => (b =? j) && f b) l.
Proof.
  induction 1 as [|b l Hb Hl IH]; simpl; [apply Z.testbit_0_l|].
  destruct (f b); rewrite ?Z.lor_spec, ?_BV_testbit, IH by done;
    rewrite ?andb_true_r, ?andb_false_r; done.
Qed.

Lemma existsb_seqZ_byte (f : Z -> bool) j :
  0 <= j < 8 -> existsb (fun b => (b =? j) && f b) (seqZ 0 8) = f j.
Proof.
  intros Hj.
  assert (j = 0 \/ j = 1 \/ j = 2 \/ j = 3 \/ j = 4 \/ j = 5 \/ j = 6 \/ j = 7)
    as Hcases by lia.
  destruct_or! Hcases; subst j; vm_compute;
    match goal with |- _ = f ?k => destruct (f k) end; reflexivity.
Qed.

Lemma bits_of_byte_testbit f j :
  0 <= j < 8 -> Z.testbit (bits_of f (seqZ 0 8)) j = f j.
Proof.
  intros Hj. rewrite bits_of_testbit by (apply Forall_seqZ; lia).
  by apply existsb_seqZ_byte.
Qed.

(** Conversion to [uint8_t], as in the compound assignments [*reg &= ~bit]. *)
Definition u8 (z : Z) : Z := z mod 256.

Lemma u8_testbit z j : 0 <= j -> Z.testbit (u8 z) j = (j <? 8) && Z.testbit z j.
Proof.
  intros Hj. unfold u8. change 256 with (2 ^ 8). by rewrite Z.testbit_mod_pow2.
Qed.

(** Pointwise update of a function, for abstract per-line states. *)
Definition fupd {A B} `{EqDecision A} (f : A -> B) (a : A) (b : B) : A -> B :=
  fun x => if decide (x = a) then b else f x.

Lemma fupd_eq {A B} `{EqDecision A} (f : A -> B) a b : fupd f a b a = b.
Proof. unfold fupd. by case_decide. Qed.

Lemma fupd_ne {A B} `{EqDecision A} (f : A -> B) a b x : x <> a -> fupd f a b x = f x.
Proof. unfold fupd. by case_decide. Qed.

#[export] Hint Rewrite @fupd_eq : pins_rw.

(** Masking with a one-bit mask tests that bit. *)
Lemma land_BV_nonzero z k : 0 <= k -> Z.land z (_BV k) <> 0 <-> Z.testbit z k = true.
Proof.
  intros Hk. split.
  - intros Hnz. destruct (Z.testbit z k) eqn:E; [done|]. exfalso. apply Hnz.
    apply Z.bits_inj_0. intros n. rewrite Z.land_spec, _BV_testbit by done.
    destruct (Z.eqb_spec k n) as [->|]; [by rewrite E | apply andb_false_r].
  - intros Hb Hz. assert (Z.testbit (Z.land z (_BV k)) k = false) as Hf
      by (rewrite Hz; apply Z.testbit_0_l).
    rewrite Z.land_spec, _BV_testbit, Hb, Z.eqb_refl in Hf by done. discriminate.
Qed.
