(* ===== verification/Avr.v ===== *)
(** * Avr: the ATmega1284P and Arduino-core names the variant header uses

    The header names ports, I/O registers, timer channels and sentinels that
    it does not define itself. This file gives them their meaning. It is the
    environment the header is checked against, not code of the repository.

    - The ports, registers and addresses are avr-libc's [iom1284p.h].
    - The pin-change interrupt groups, the output-compare pins of the timers
      and the ADC inputs follow the ATmega1284P data sheet.
    - The sentinels and timer codes are the Arduino core's [Arduino.h]. *)

From stdpp Require Import base list numbers decidable.
From Stdlib Require Import ZArith Lia.
From S2P Require Import Prelude.

Open Scope Z_scope.

(** ** Ports and port bits *)

Inductive Port := PortA | PortB | PortC | PortD.

#[export] Instance Port_eq_dec : EqDecision Port.
Proof. solve_decision. Defined.

Definition all_ports : list Port := [PortA; PortB; PortC; PortD].

Lemma all_ports_complete (p : Port) : p ∈ all_ports.
Proof. apply list_elem_of_In. destruct p; simpl; tauto. Qed.

(** One I/O line of the chip: a port and a bit 0..7 of it. *)
Definition Gpio : Type := (Port * Z)%type.

Definition gpio_ok (g : Gpio) : bool := (0 <=? g.2) && (g.2 <? 8).

(** The 32 I/O lines of the chip. *)
Definition all_gpios : list Gpio :=
  x ← all_ports; b ← seqZ 0 8; [(x, b)].

(** ** I/O registers and their data-space addresses (avr-libc) *)

Inductive IoReg :=
  | DDRx (x : Port) | PORTx (x : Port) | PINx (x : Port)
  | PCICR | PCIFR | PCMSK0 | PCMSK1 | PCMSK2 | PCMSK3.

#[export] Instance IoReg_eq_dec : EqDecision IoReg.
Proof. solve_decision. Defined.

Definition DDRA := DDRx PortA.
Definition DDRB := DDRx PortB.
Definition DDRC := DDRx PortC.
Definition DDRD := DDRx PortD.
Definition PORTA := PORTx PortA.
Definition PORTB := PORTx PortB.
Definition PORTC := PORTx PortC.
Definition PORTD := PORTx PortD.
Definition PINA := PINx PortA.
Definition PINB := PINx PortB.
Definition PINC := PINx PortC.
Definition PIND := PINx PortD.

(** Each port occupies three consecutive addresses, PINx, DDRx, PORTx,
    starting at 0x20 for port A. *)
Definition port_index (x : Port) : Z :=
  match x with PortA => 0 | PortB => 1 | PortC => 2 | PortD => 3 end.

Definition io_addr (r : IoReg) : Z :=
  match r with
  | PINx x => 0x20 + 3 * port_index x
  | DDRx x => 0x21 + 3 * port_index x
  | PORTx x => 0x22 + 3 * port_index x
  | PCIFR => 0x3B
  | PCICR => 0x68
  | PCMSK0 => 0x6B
  | PCMSK1 => 0x6C
  | PCMSK2 => 0x6D
  | PCMSK3 => 0x73
  end.

Definition all_ioregs : list IoReg :=
  (x ← all_ports; [DDRx x; PORTx x; PINx x]) ++
  [PCICR; PCIFR; PCMSK0; PCMSK1; PCMSK2; PCMSK3].

(** ** Pin-change interrupts (data sheet, section "PCICR")

    [PCINT0..7] are port A, [PCINT8..15] port B, [PCINT16..23] port C and
    [PCINT24..31] port D. Group [k] is enabled by bit [PCIEk] of [PCICR] and
    masked by [PCMSKk]. *)
Definition pcint_group (x : Port) : Z := port_index x.

Definition pcint_number (g : Gpio) : Z := 8 * pcint_group g.1 + g.2.

Definition pcmsk_of_group (k : Z) : option IoReg :=
  match k with 0 => Some PCMSK0 | 1 => Some PCMSK1 | 2 => Some PCMSK2
             | 3 => Some PCMSK3 | _ => None end.

(** ** Sentinels and timer codes of Arduino.h *)

Definition NOT_A_PIN : Z := 0.
Definition NOT_A_PORT : Z := 0.
Definition NOT_ON_TIMER : Z := 0.
Definition TIMER0A : Z := 1.
Definition TIMER0B : Z := 2.
Definition TIMER1A : Z := 3.
Definition TIMER1B : Z := 4.
Definition TIMER1C : Z := 5.
Definition TIMER2 : Z := 6.
Definition TIMER2A : Z := 7.
Definition TIMER2B : Z := 8.
Definition TIMER3A : Z := 9.
Definition TIMER3B : Z := 10.
Definition TIMER3C : Z := 11.

(** ** Output-compare pins of the ATmega1284P timers

    [OC0A] = PB3, [OC0B] = PB4, [OC1A] = PD5, [OC1B] = PD4, [OC2A] = PD7,
    [OC2B] = PD6, [OC3A] = PB6, [OC3B] = PB7. The chip has no [OC1C], [OC2]
    or [OC3C]. *)
Definition oc_pin (t : Z) : option Gpio :=
  if decide (t = TIMER0A) then Some (PortB, 3)
  else if decide (t = TIMER0B) then Some (PortB, 4)
  else if decide (t = TIMER1A) then Some (PortD, 5)
  else if decide (t = TIMER1B) then Some (PortD, 4)
  else if decide (t = TIMER2A) then Some (PortD, 7)
  else if decide (t = TIMER2B) then Some (PortD, 6)
  else if decide (t = TIMER3A) then Some (PortB, 6)
  else if decide (t = TIMER3B) then Some (PortB, 7)
  else None.

(** ** ADC inputs: channel [k] (0..7) is pin [PAk]. *)
Definition adc_pin (k : Z) : option Gpio :=
  if decide (0 <= k < 8) then Some (PortA, k) else None.

(** ** The SPI and TWI pins of the chip *)
Definition spi_ss_gpio : Gpio := (PortB, 4).
Definition spi_mosi_gpio : Gpio := (PortB, 5).
Definition spi_miso_gpio : Gpio := (PortB, 6).
Definition spi_sck_gpio : Gpio := (PortB, 7).
Definition twi_scl_gpio : Gpio := (PortC, 0).
Definition twi_sda_gpio : Gpio := (PortC, 1).

(** ** Lemmas *)

(** Distinct registers have distinct addresses, and all fit a [uint16_t]. *)
Lemma io_addr_inj r1 r2 : io_addr r1 = io_addr r2 -> r1 = r2.
Proof.
  destruct r1 as [x|x|x| | | | | | ], r2 as [y|y|y| | | | | | ];
    try destruct x; try destruct y; simpl; intros H; done.
Qed.

Lemma io_addr_uint16 r : is_uint16 (io_addr r) = true /\ io_addr r <> 0.
Proof. destruct r as [x|x|x| | | | | | ]; try destruct x; split; done. Qed.

Lemma elem_of_all_gpios g : g ∈ all_gpios <-> gpio_ok g = true.
Proof.
  destruct g as [x b]. unfold all_gpios, gpio_ok.
  rewrite list_elem_of_bind. setoid_rewrite list_elem_of_bind.
  setoid_rewrite list_elem_of_singleton. setoid_rewrite elem_of_seqZ.
  rewrite andb_true_iff, Z.leb_le, Z.ltb_lt. split.
  - intros (x' & (b' & [= -> ->] & Hb) & _). simpl. lia.
  - intros Hb. exists x. split; [|apply all_ports_complete].
    exists b. simpl in Hb. split; [done | lia].
Qed.

#[export] Hint Resolve io_addr_inj all_ports_complete : pins.

(** Only the eight output-compare channels of the chip have a pin. *)
Lemma oc_pin_range t g : oc_pin t = Some g -> 1 <= t <= 10.
Proof.
  unfold oc_pin, TIMER0A, TIMER0B, TIMER1A, TIMER1B, TIMER2A, TIMER2B,
    TIMER3A, TIMER3B.
  repeat case_decide; intros; simplify_eq; lia.
Qed.

(** No two timer channels share an output-compare pin. *)
Lemma oc_pin_inj t1 t2 g : oc_pin t1 = Some g -> oc_pin t2 = Some g -> t1 = t2.
Proof.
  intros H1 H2. pose proof (oc_pin_range _ _ H1). pose proof (oc_pin_range _ _ H2).
  assert (is_Some (oc_pin t1)) as Hs by (rewrite H1; eauto).
  rewrite <- H2 in H1. clear H2. revert H1 Hs. range_decide_at2 t1 t2 1 10.
Qed.
