(* ===== verification/PinsArduino.v ===== *)
(** * PinsArduino: the constants and PROGMEM arrays of pins_arduino.h

    The board constants (lines 70-103) and the port codes [PA] .. [PD]
    (lines 120-123) are [Z] values. The PROGMEM arrays (lines 128-288) are
    [list Z], one element per initializer, in source order. A HAL read
    [pgm_read_byte(t + i)] / [pgm_read_word(t + i)] is [pgm_read t i], and
    [pin_gpio] chains the reads of [digitalPinToPort] and
    [digitalPinToBitMask] into the I/O line a pin drives. [Diagram] holds the
    header's own specification: the DIP-40 pinout (lines 8-29) and the
    pin/PCINT table (lines 32-68). *)

From stdpp Require Import base list numbers decidable.
From Stdlib Require Import ZArith Lia.
From S2P Require Import Prelude Avr.

Open Scope Z_scope.

(** ** Board constants *)

Definition NUM_DIGITAL_PINS : Z := 40.
Definition NUM_ANALOG_INPUTS : Z := 8.

Definition SS : Z := 5.
Definition MOSI : Z := 6.
Definition MISO : Z := 7.
Definition SCK : Z := 8.

Definition SDA : Z := 23.
Definition SCL : Z := 22.
Definition LED : Z := 1.

Definition A0 : Z := 24.
Definition A1 : Z := 25.
Definition A2 : Z := 26.
Definition A3 : Z := 27.
Definition A4 : Z := 28.
Definition A5 : Z := 29.
Definition A6 : Z := 30.
Definition A7 : Z := 31.

(** [A0] .. [A7] as an array indexed by the analog input number. *)
Definition analog_pin_constants : list Z := [A0; A1; A2; A3; A4; A5; A6; A7].

(** ** Port codes *)

Definition PA : Z := 1.
Definition PB : Z := 2.
Definition PC : Z := 3.
Definition PD : Z := 4.

Definition port_code (x : Port) : Z :=
  match x with PortA => PA | PortB => PB | PortC => PC | PortD => PD end.

Definition port_of_code (c : Z) : option Port :=
  if decide (c = PA) then Some PortA
  else if decide (c = PB) then Some PortB
  else if decide (c = PC) then Some PortC
  else if decide (c = PD) then Some PortD
  else None.

(** ** Port register arrays, indexed by port code *)

Definition port_to_mode_PGM : list Z :=
  [ NOT_A_PORT;
    u16 (io_addr DDRA);
    u16 (io_addr DDRB);
    u16 (io_addr DDRC);
    u16 (io_addr DDRD) ].

Definition port_to_output_PGM : list Z :=
  [ NOT_A_PORT;
    u16 (io_addr PORTA);
    u16 (io_addr PORTB);
    u16 (io_addr PORTC);
    u16 (io_addr PORTD) ].

Definition port_to_input_PGM : list Z :=
  [ NOT_A_PORT;
    u16 (io_addr PINA);
    u16 (io_addr PINB);
    u16 (io_addr PINC);
    u16 (io_addr PIND) ].

(** ** Pin arrays, indexed by digital pin number 0 .. 40 *)

Definition digital_pin_to_port_PGM : list Z :=
  [ NOT_A_PIN;
    PB; PB; PB; PB; PB; PB; PB; PB;                      (* 1 .. 8 *)
    NOT_A_PIN; NOT_A_PIN; NOT_A_PIN; NOT_A_PIN; NOT_A_PIN; (* 9 .. 13 *)
    PD; PD; PD; PD; PD; PD; PD; PD;                      (* 14 .. 21 *)
    PC; PC; PC; PC; PC; PC; PC; PC;                      (* 22 .. 29 *)
    NOT_A_PIN; NOT_A_PIN; NOT_A_PIN;                     (* 30 .. 32 *)
    PA; PA; PA; PA; PA; PA; PA; PA ].                    (* 33 .. 40 *)

Definition digital_pin_to_bit_mask_PGM : list Z :=
  [ NOT_A_PIN;
    _BV 0; _BV 1; _BV 2; _BV 3; _BV 4; _BV 5; _BV 6; _BV 7; (* 1, port B *)
    NOT_A_PIN; NOT_A_PIN; NOT_A_PIN; NOT_A_PIN; NOT_A_PIN;
    _BV 0; _BV 1; _BV 2; _BV 3; _BV 4; _BV 5; _BV 6; _BV 7; (* 14, port D *)
    _BV 0; _BV 1; _BV 2; _BV 3; _BV 4; _BV 5; _BV 6; _BV 7; (* 22, port C *)
    NOT_A_PIN; NOT_A_PIN; NOT_A_PIN;
    _BV 7; _BV 6; _BV 5; _BV 4; _BV 3; _BV 2; _BV 1; _BV 0 ]. (* 33, port A *)

Definition digital_pin_to_timer_PGM : list Z :=
  [ NOT_A_PIN;
    NOT_ON_TIMER; NOT_ON_TIMER; NOT_ON_TIMER;   (* 1 .. 3 *)
    TIMER0A; TIMER0B;                           (* 4, 5 *)
    NOT_ON_TIMER;                               (* 6 *)
    TIMER3A; TIMER3B;                           (* 7, 8 *)
    NOT_A_PIN; NOT_A_PIN; NOT_A_PIN; NOT_A_PIN; NOT_A_PIN;
    NOT_ON_TIMER; NOT_ON_TIMER; NOT_ON_TIMER; NOT_ON_TIMER; (* 14 .. 17 *)
    TIMER1B; TIMER1A; TIMER2B; TIMER2A;         (* 18 .. 21 *)
    NOT_ON_TIMER; NOT_ON_TIMER; NOT_ON_TIMER; NOT_ON_TIMER;
    NOT_ON_TIMER; NOT_ON_TIMER; NOT_ON_TIMER; NOT_ON_TIMER; (* 22 .. 29 *)
    NOT_A_PIN; NOT_A_PIN; NOT_A_PIN;
    NOT_ON_TIMER; NOT_ON_TIMER; NOT_ON_TIMER; NOT_ON_TIMER;
    NOT_ON_TIMER; NOT_ON_TIMER; NOT_ON_TIMER; NOT_ON_TIMER ]. (* 33 .. 40 *)

(** ** Reading the arrays

    [pgm_read t i] is [pgm_read_byte(t + i)] (or [pgm_read_word]). A read
    outside the array is [None]: C gives it no meaning, and on the chip it
    returns whatever flash follows the array. *)
Definition pgm_read (t : list Z) (i : Z) : option Z :=
  if decide (0 <= i) then t !! Z.to_nat i else None.

(** The mask's bit number: the [k] in 0..7 with [_BV k = m]. *)
Definition bit_of_mask (m : Z) : option Z :=
  head (filter (fun k => _BV k = m) (seqZ 0 8)).

(** The I/O line pin [p] drives: its port code read from
    [digital_pin_to_port_PGM], decoded, and the bit of its mask read from
    [digital_pin_to_bit_mask_PGM]. [None] when either read is outside the
    array or the code or mask is a sentinel. *)
Definition pin_gpio (p : Z) : option Gpio :=
  c ← pgm_read digital_pin_to_port_PGM p;
  x ← port_of_code c;
  m ← pgm_read digital_pin_to_bit_mask_PGM p;
  b ← bit_of_mask m;
  Some (x, b).

(** The inverse lookup: the first pin number in 0..40 that drives line
    [g]. *)
Definition line_pin (g : Gpio) : option Z :=
  head (filter (fun p => pin_gpio p = Some g) (seqZ 0 41)).

(** ** The header's own specification *)
Module Diagram.

(** The 40 pins of the DIP package, in pin order (lines 8-29). *)
Inductive DipPin :=
  | Io (x : Port) (b : Z) | RST | VCC | GND | XTAL1 | XTAL2 | AVCC | AREF.

Definition pinout_diagram : list DipPin :=
  [ Io PortB 0; Io PortB 1; Io PortB 2; Io PortB 3;       (* 1 .. 4 *)
    Io PortB 4; Io PortB 5; Io PortB 6; Io PortB 7;       (* 5 .. 8 *)
    RST; VCC; GND; XTAL2; XTAL1;                          (* 9 .. 13 *)
    Io PortD 0; Io PortD 1; Io PortD 2; Io PortD 3;       (* 14 .. 17 *)
    Io PortD 4; Io PortD 5; Io PortD 6; Io PortD 7;       (* 18 .. 21 *)
    Io PortC 0; Io PortC 1; Io PortC 2; Io PortC 3;       (* 22 .. 25 *)
    Io PortC 4; Io PortC 5; Io PortC 6; Io PortC 7;       (* 26 .. 29 *)
    AVCC; GND; AREF;                                      (* 30 .. 32 *)
    Io PortA 7; Io PortA 6; Io PortA 5; Io PortA 4;       (* 33 .. 36 *)
    Io PortA 3; Io PortA 2; Io PortA 1; Io PortA 0 ].     (* 37 .. 40 *)

(** The diagram labels each I/O pin "(D n)" with its own DIP number, so
    digital pin [p] is DIP pin [p]. *)
Definition diagram_gpio (p : Z) : option Gpio :=
  if decide (1 <= p) then
    match pinout_diagram !! Z.to_nat (p - 1) with
    | Some (Io x b) => Some (x, b)
    | _ => None
    end
  else None.

(** The "DPIN PCInt" table of lines 32-68. *)
Definition pcint_comment_table : list (Z * Z) :=
  [ (1, 8); (2, 9); (3, 10); (4, 11); (5, 12); (6, 13); (7, 14); (8, 15);
    (14, 24); (15, 25); (16, 26); (17, 27); (18, 28); (19, 29); (20, 30);
    (21, 31); (22, 16); (23, 17); (24, 18); (25, 19); (26, 20); (27, 21);
    (28, 22); (29, 23);
    (33, 7); (34, 6); (35, 5); (36, 4); (37, 3); (38, 2); (39, 1); (40, 0) ].

End Diagram.

Import Diagram.

(** ** Reads outside the arrays *)

Lemma pgm_read_is_Some (t : list Z) i :
  is_Some (pgm_read t i) <-> 0 <= i < Z.of_nat (length t).
Proof.
  unfold pgm_read. case_decide.
  - rewrite lookup_lt_is_Some. lia.
  - split; [intros [? ?]; done | lia].
Qed.

Lemma pgm_read_None (t : list Z) i :
  i < 0 \/ Z.of_nat (length t) <= i -> pgm_read t i = None.
Proof.
  intros Hi. destruct (pgm_read t i) eqn:E; [|done].
  assert (is_Some (pgm_read t i)) as Hs by (rewrite E; eauto).
  rewrite pgm_read_is_Some in Hs. lia.
Qed.

Lemma pin_arrays_length :
  length digital_pin_to_port_PGM = 41%nat /\
  length digital_pin_to_bit_mask_PGM = 41%nat /\
  length digital_pin_to_timer_PGM = 41%nat.
Proof. split_and!; reflexivity. Qed.

Lemma pin_gpio_oob p : p < 0 \/ 40 < p -> pin_gpio p = None.
Proof.
  intros Hp. unfold pin_gpio.
  rewrite (pgm_read_None digital_pin_to_port_PGM); [done|].
  rewrite (proj1 pin_arrays_length). lia.
Qed.

Lemma diagram_gpio_oob p : p < 1 \/ 40 < p -> diagram_gpio p = None.
Proof.
  intros Hp. unfold diagram_gpio. case_decide; [|done].
  rewrite lookup_ge_None_2; [done|]. simpl. lia.
Qed.

Lemma pin_gpio_range p g : pin_gpio p = Some g -> 1 <= p <= 40.
Proof.
  intros Hg. destruct (decide (0 <= p <= 40)).
  - assert (is_Some (pin_gpio p) -> 1 <= p) as Hp
      by range_decide_at p 0 40.
    rewrite Hg in Hp. specialize (Hp ltac:(eauto)). lia.
  - rewrite pin_gpio_oob in Hg by lia. done.
Qed.

#[export] Hint Resolve pin_gpio_range : pins.

(** ** Refinement of the pinout diagram *)

(** C1: the per-pin arrays implement the header's pinout diagram. For every
    integer [p], the port read from [digital_pin_to_port_PGM] and the bit of
    the mask read from [digital_pin_to_bit_mask_PGM] are the port and bit
    the diagram draws at DIP pin [p]. A pin the diagram gives no I/O line
    (power, reset, crystal, or a number off the package) has no line in the
    arrays either. *)
Theorem pin_gpio_refines_diagram p : pin_gpio p = diagram_gpio p.
Proof.
  destruct (decide (0 <= p <= 40)).
  - range_decide_at p 0 40.
  - rewrite pin_gpio_oob, diagram_gpio_oob by lia. done.
Qed.

(** C2: no two pins drive the same I/O line. If pins [p] and [q] both map
    to the line [g], then [p = q]. So a write to one pin never changes the
    bit of another. *)
Theorem pin_gpio_injective p q g :
  pin_gpio p = Some g -> pin_gpio q = Some g -> p = q.
Proof.
  intros Hp Hq.
  pose proof (pin_gpio_range p g Hp). pose proof (pin_gpio_range q g Hq).
  assert (is_Some (pin_gpio p)) as Hs by (rewrite Hp; eauto).
  rewrite <- Hq in Hp. revert Hp Hs.
  range_decide_at2 p q 1 40.
Qed.

Lemma pin_gpio_injective_witness :
  pin_gpio 33 = Some (PortA, 7) /\ pin_gpio 33 = Some (PortA, 7) /\ 33 = 33.
Proof.
  split; [reflexivity|]. split; [reflexivity|].
  apply (pin_gpio_injective 33 33 (PortA, 7)); reflexivity.
Defined.

(** C3: every one of the 32 I/O lines of the chip (ports A-D, bits 0-7) is
    reachable. Some pin number maps to it. *)
Theorem pin_gpio_surjective g : gpio_ok g = true -> exists p, pin_gpio p = Some g.
Proof.
  intros Hg. apply elem_of_all_gpios in Hg.
  assert (Forall (fun g => Some g ∈ pin_gpio <$> seqZ 0 41) all_gpios) as Hall.
  { apply (bool_decide_unpack _). vm_compute. reflexivity. }
  rewrite Forall_forall in Hall. apply list_elem_of_In in Hg.
  apply Hall, list_elem_of_fmap in Hg as (p & Hp & _). eauto.
Qed.

Lemma pin_gpio_surjective_witness :
  gpio_ok (PortD, 7) = true /\ exists p, pin_gpio p = Some (PortD, 7).
Proof.
  split; [reflexivity|]. apply (pin_gpio_surjective (PortD, 7)). reflexivity.
Defined.

Lemma pgm_read_elem (t : list Z) i v : pgm_read t i = Some v -> v ∈ t.
Proof.
  unfold pgm_read. case_decide; [|done].
  intros H'. by eapply list_elem_of_lookup_2.
Qed.

Lemma pgm_read_range (t : list Z) i v :
  pgm_read t i = Some v -> 0 <= i < Z.of_nat (length t).
Proof. intros Hv. apply pgm_read_is_Some. rewrite Hv. eauto. Qed.

(** A property of every element of an array holds of every value read from
    it. *)
Lemma pgm_read_Forall (P : Z -> Prop) (t : list Z) i v :
  Forall P t -> pgm_read t i = Some v -> P v.
Proof.
  intros Hall Hv. rewrite Forall_forall in Hall.
  apply Hall, list_elem_of_In. by eapply pgm_read_elem.
Qed.

#[export] Hint Resolve pgm_read_elem pgm_read_range : pins.

(** ** Masks, sentinels and bounds *)

(** C4: a mask read for a pin is either the [NOT_A_PIN] sentinel or has
    exactly one bit set, at a position [k] in 0..7 of the 8-bit port
    register. *)
Theorem bit_mask_one_hot p m :
  pgm_read digital_pin_to_bit_mask_PGM p = Some m -> m <> NOT_A_PIN ->
  exists k, 0 <= k < 8 /\ m = _BV k /\ forall j, Z.testbit m j = (k =? j).
Proof.
  intros Hm Hnz.
  assert (Forall (fun m => m = NOT_A_PIN \/ Exists (fun k => m = _BV k) (seqZ 0 8))
            digital_pin_to_bit_mask_PGM) as Hall.
  { apply (bool_decide_unpack _). vm_compute. reflexivity. }
  destruct (pgm_read_Forall _ _ _ _ Hall Hm) as [|Hk]; [done|].
  apply Exists_exists in Hk as (k & Hk & ->).
  apply list_elem_of_In, elem_of_seqZ in Hk.
  exists k. split; [lia|]. split; [done|]. intros j. apply _BV_testbit. lia.
Qed.

Lemma bit_mask_one_hot_witness :
  pgm_read digital_pin_to_bit_mask_PGM 33 = Some 128 /\ 128 <> NOT_A_PIN /\
  exists k, 0 <= k < 8 /\ 128 = _BV k /\ forall j, Z.testbit 128 j = (k =? j).
Proof.
  split; [reflexivity|]. split; [discriminate|].
  apply (bit_mask_one_hot 33 128); [reflexivity | discriminate].
Defined.

(** C5: the pins that have an I/O line are exactly 1-8 (port B), 14-21
    (port D), 22-29 (port C) and 33-40 (port A). Every other integer, the
    reset, supply and crystal pins 9-13 and 30-32 included, has none. *)
Theorem pin_has_port_iff p :
  is_Some (pin_gpio p) <-> 1 <= p <= 8 \/ 14 <= p <= 29 \/ 33 <= p <= 40.
Proof.
  destruct (decide (0 <= p <= 40)).
  - range_decide_at p 0 40.
  - rewrite pin_gpio_oob by lia. split; [intros [? ?]; done | lia].
Qed.

(** C6: the three per-pin arrays are defined exactly on the indices
    [0 .. NUM_DIGITAL_PINS]. A read at a negative index or at
    [NUM_DIGITAL_PINS + 1] or above is outside the array. *)
Theorem pin_arrays_domain p :
  (is_Some (pgm_read digital_pin_to_port_PGM p) <-> 0 <= p <= NUM_DIGITAL_PINS) /\
  (is_Some (pgm_read digital_pin_to_bit_mask_PGM p) <-> 0 <= p <= NUM_DIGITAL_PINS) /\
  (is_Some (pgm_read digital_pin_to_timer_PGM p) <-> 0 <= p <= NUM_DIGITAL_PINS).
Proof.
  rewrite !pgm_read_is_Some.
  destruct pin_arrays_length as (-> & -> & ->). unfold NUM_DIGITAL_PINS.
  split_and!; lia.
Qed.

(** C7: the three per-pin arrays agree on the sentinel. For an index in
    [0 .. NUM_DIGITAL_PINS], the port is [NOT_A_PIN] exactly when the mask
    is [NOT_A_PIN], and then the timer is [NOT_ON_TIMER]. The pin then has
    no I/O line. *)
Theorem pin_sentinels_agree p :
  0 <= p <= NUM_DIGITAL_PINS ->
  (pgm_read digital_pin_to_port_PGM p = Some NOT_A_PIN <->
   pgm_read digital_pin_to_bit_mask_PGM p = Some NOT_A_PIN) /\
  (pgm_read digital_pin_to_port_PGM p = Some NOT_A_PIN ->
   pgm_read digital_pin_to_timer_PGM p = Some NOT_ON_TIMER /\ pin_gpio p = None).
Proof. intros Hp. unfold NUM_DIGITAL_PINS in Hp. range_decide_at p 0 40. Qed.

Lemma pin_sentinels_agree_witness :
  0 <= 11 <= NUM_DIGITAL_PINS /\
  (pgm_read digital_pin_to_port_PGM 11 = Some NOT_A_PIN <->
   pgm_read digital_pin_to_bit_mask_PGM 11 = Some NOT_A_PIN) /\
  (pgm_read digital_pin_to_port_PGM 11 = Some NOT_A_PIN ->
   pgm_read digital_pin_to_timer_PGM 11 = Some NOT_ON_TIMER /\ pin_gpio 11 = None).
Proof.
  split; [unfold NUM_DIGITAL_PINS; lia|].
  apply (pin_sentinels_agree 11). unfold NUM_DIGITAL_PINS. lia.
Defined.

(** ** Port codes and port register arrays *)

Lemma port_of_code_port_code x : port_of_code (port_code x) = Some x.
Proof. by destruct x. Qed.

Lemma port_code_of_code c x : port_of_code c = Some x -> c = port_code x.
Proof.
  unfold port_of_code. repeat case_decide; intros; simplify_eq; done.
Qed.

#[export] Hint Resolve port_of_code_port_code port_code_of_code : pins.
#[export] Hint Rewrite port_of_code_port_code : pins_rw.

(** C8: the port arrays turn the port code of port [x] into the addresses
    of its direction, output and input registers. The [(uint16_t)] cast
    loses nothing, and index 0 holds [NOT_A_PORT], which is no register's
    address. *)
Theorem port_arrays_spec x :
  pgm_read port_to_mode_PGM (port_code x) = Some (io_addr (DDRx x)) /\
  pgm_read port_to_output_PGM (port_code x) = Some (io_addr (PORTx x)) /\
  pgm_read port_to_input_PGM (port_code x) = Some (io_addr (PINx x)) /\
  pgm_read port_to_mode_PGM 0 = Some NOT_A_PORT /\
  (forall r, io_addr r <> NOT_A_PORT).
Proof.
  split_and!; [destruct x; reflexivity .. | reflexivity |].
  intros r. apply io_addr_uint16.
Qed.

(** ** Timers *)

(** C9: every pin the timer array puts on a timer is the pin of that
    timer's output-compare unit on the ATmega1284P. So [analogWrite]
    drives the pin that is asked for. *)
Theorem timer_array_oc_pins p t :
  pgm_read digital_pin_to_timer_PGM p = Some t -> t <> NOT_ON_TIMER ->
  is_Some (pin_gpio p) /\ oc_pin t = pin_gpio p.
Proof.
  intros Ht Hnt.
  pose proof (pgm_read_range _ _ _ Ht) as Hp.
  rewrite (proj2 (proj2 pin_arrays_length)) in Hp.
  assert (pgm_read digital_pin_to_timer_PGM p = Some NOT_ON_TIMER \/
          (is_Some (pin_gpio p) /\
           oc_pin <$> pgm_read digital_pin_to_timer_PGM p = Some (pin_gpio p)))
    as Hdec by range_decide_at p 0 40.
  rewrite Ht in Hdec. simpl in Hdec. destruct Hdec as [[= ?] | [Hs [= Hoc]]]; done.
Qed.

Lemma timer_array_oc_pins_witness :
  pgm_read digital_pin_to_timer_PGM 21 = Some TIMER2A /\ TIMER2A <> NOT_ON_TIMER /\
  is_Some (pin_gpio 21) /\ oc_pin TIMER2A = pin_gpio 21.
Proof.
  split; [reflexivity|]. split; [discriminate|].
  apply (timer_array_oc_pins 21 TIMER2A); [reflexivity | discriminate].
Defined.

(** C10: every output-compare unit of the chip is routed. Its pin has a
    digital pin number whose timer entry names that unit. So no PWM channel
    is unreachable from [analogWrite]. *)
Theorem oc_pins_routed t g :
  oc_pin t = Some g ->
  exists p, pin_gpio p = Some g /\ pgm_read digital_pin_to_timer_PGM p = Some t.
Proof.
  intros Hg. pose proof (oc_pin_range t g Hg).
  assert (oc_pin t = None \/
          Exists (fun p => pin_gpio p = oc_pin t /\
                           pgm_read digital_pin_to_timer_PGM p = Some t)
                 (seqZ 0 41)) as Hdec by range_decide_at t 1 10.
  rewrite Hg in Hdec. destruct Hdec as [|Hex]; [done|].
  apply Exists_exists in Hex as (p & _ & Hp & Ht). eauto.
Qed.

Lemma oc_pins_routed_witness :
  oc_pin TIMER3B = Some (PortB, 7) /\
  exists p, pin_gpio p = Some (PortB, 7) /\
            pgm_read digital_pin_to_timer_PGM p = Some TIMER3B.
Proof.
  split; [reflexivity|]. apply (oc_pins_routed TIMER3B (PortB, 7)). reflexivity.
Defined.

(** ** The header's comments and fixed pins *)

(** C11: the "DPIN PCInt" table of the header's comment agrees with the
    arrays. Each listed pin drives the I/O line with that PCINT number.
    Conversely, every pin with an I/O line is listed with its PCINT
    number. *)
Theorem pcint_comment_table_consistent :
  (forall d n, (d, n) ∈ pcint_comment_table ->
     exists g, pin_gpio d = Some g /\ pcint_number g = n) /\
  (forall p g, pin_gpio p = Some g -> (p, pcint_number g) ∈ pcint_comment_table).
Proof.
  split.
  - intros d n Hdn.
    assert (Forall (fun e => pcint_number <$> pin_gpio e.1 = Some e.2)
              pcint_comment_table) as Hall.
    { apply (bool_decide_unpack _). vm_compute. reflexivity. }
    rewrite Forall_forall in Hall. apply list_elem_of_In, Hall in Hdn.
    simpl in Hdn. destruct (pin_gpio d) as [g|]; [|done].
    simpl in Hdn. injection Hdn as Hn. eauto.
  - intros p g Hg. pose proof (pin_gpio_range p g Hg).
    assert (pin_gpio p = None \/
            (fun g => (p, pcint_number g)) <$> pin_gpio p ∈ Some <$> pcint_comment_table)
      as Hdec by range_decide_at p 1 40.
    rewrite Hg in Hdec. destruct Hdec as [|Hin]; [done|].
    apply list_elem_of_fmap in Hin as (e & [= <-] & He). done.
Qed.

(** C12: the SPI constants [SS], [MOSI], [MISO], [SCK] and the TWI
    constants [SCL], [SDA] name the pins of the chip's SPI and TWI units. *)
Theorem spi_twi_constants :
  pin_gpio SS = Some spi_ss_gpio /\ pin_gpio MOSI = Some spi_mosi_gpio /\
  pin_gpio MISO = Some spi_miso_gpio /\ pin_gpio SCK = Some spi_sck_gpio /\
  pin_gpio SCL = Some twi_scl_gpio /\ pin_gpio SDA = Some twi_sda_gpio.
Proof. split_and!; reflexivity. Qed.

(** C13: every initializer fits the element type of its array. The pin
    arrays hold [uint8_t] values and the port arrays [uint16_t] values, so
    no initializer is narrowed. *)
Theorem arrays_fit_element_types :
  Forall (fun v => is_uint8 v = true) digital_pin_to_port_PGM /\
  Forall (fun v => is_uint8 v = true) digital_pin_to_bit_mask_PGM /\
  Forall (fun v => is_uint8 v = true) digital_pin_to_timer_PGM /\
  Forall (fun v => is_uint16 v = true) port_to_mode_PGM /\
  Forall (fun v => is_uint16 v = true) port_to_output_PGM /\
  Forall (fun v => is_uint16 v = true) port_to_input_PGM.
Proof. split_and!; apply (bool_decide_unpack _); vm_compute; reflexivity. Qed.

(** ** Inverting the combined lookup *)

Lemma bit_of_mask_Some m k : bit_of_mask m = Some k -> 0 <= k < 8 /\ m = _BV k.
Proof.
  unfold bit_of_mask. intros Hk%head_Some_elem_of.
  apply list_elem_of_filter in Hk as [Hm Hk%elem_of_seqZ]. split; [lia | done].
Qed.

(** A pin with a line reads its port's code and the line's bit mask. *)
Lemma pin_gpio_Some_inv p x k :
  pin_gpio p = Some (x, k) ->
  pgm_read digital_pin_to_port_PGM p = Some (port_code x) /\
  pgm_read digital_pin_to_bit_mask_PGM p = Some (_BV k) /\ 0 <= k < 8.
Proof.
  unfold pin_gpio.
  destruct (pgm_read digital_pin_to_port_PGM p) as [c|]; [|done]. simpl.
  destruct (port_of_code c) as [x'|] eqn:Hx; [|done]. simpl.
  destruct (pgm_read digital_pin_to_bit_mask_PGM p) as [m|]; [|done]. simpl.
  destruct (bit_of_mask m) as [k'|] eqn:Hk; [|done]. simpl.
  intros [= -> ->]. apply bit_of_mask_Some in Hk as [Hk ->].
  apply port_code_of_code in Hx as ->. done.
Qed.

(** [line_pin] inverts [pin_gpio] in both directions. *)
Lemma line_pin_Some g p : line_pin g = Some p -> pin_gpio p = Some g.
Proof.
  unfold line_pin. intros Hp%head_Some_elem_of.
  by apply list_elem_of_filter in Hp as [? _].
Qed.

Lemma pin_gpio_line_pin p g : pin_gpio p = Some g -> line_pin g = Some p.
Proof.
  intros Hg. pose proof (pin_gpio_range p g Hg).
  assert (pin_gpio p = None \/ line_pin <$> pin_gpio p = Some (Some p)) as Hdec
    by range_decide_at p 1 40.
  rewrite Hg in Hdec. destruct Hdec as [|Hl]; [done|]. by injection Hl.
Qed.

#[export] Hint Resolve line_pin_Some pin_gpio_line_pin : pins.
