(* ===== verification/Macros.v ===== *)
(** * Macros: the function-like macros of pins_arduino.h

    The macros of lines 72-117 are C expressions in a pin number [p], an
    [int] after promotion. Their values are C values ([cval]): an [int], a
    pointer to an I/O register, or the null pointer. The relational and
    logical operators yield [int] 0 or 1. [&&] and [||] test their operands
    against zero, and [?:] selects an operand. Each macro is written with
    these operators in the nesting of its source text. So the model keeps
    the type each macro really has: [digitalPinToPCICR] yields an [int]
    flag, not the address the HAL dereferences. An [int] of avr-gcc has
    16 bits, and signed overflow has no value ([int_res]).

    Line 109 ends with a backslash followed by a space. GCC splices such a
    line with a warning, so the macro is the four-line expression modelled
    here. [digitalPinToPCMSK] (line 116) is not modelled here: its last
    branch writes [(c) : (e)] without [?], which is not a C expression. *)

From stdpp Require Import base list numbers decidable.
From Stdlib Require Import ZArith Lia.
From S2P Require Import Prelude Avr PinsArduino.

Open Scope Z_scope.

(** ** C values and operators *)

Inductive cval := CInt (z : Z) | CPtr (r : IoReg) | CNull.

#[export] Instance cval_eq_dec : EqDecision cval.
Proof. solve_decision. Defined.

(** The test of a scalar against zero in [&&], [||] and [?:]. *)
Definition c_truth (v : cval) : bool :=
  match v with CInt z => negb (z =? 0) | CPtr _ => true | CNull => false end.

Definition c_bool (b : bool) : cval := CInt (if b then 1 else 0).

Definition c_ge (a b : Z) : cval := c_bool (b <=? a).
Definition c_le (a b : Z) : cval := c_bool (a <=? b).
Definition c_eq (a b : Z) : cval := c_bool (a =? b).
Definition c_and (u v : cval) : cval := c_bool (c_truth u && c_truth v).
Definition c_or (u v : cval) : cval := c_bool (c_truth u || c_truth v).
Definition c_cond (c u v : cval) : cval := if c_truth c then u else v.

(** An [int] of avr-gcc has 16 bits. Signed overflow is undefined in C, so
    an [int] result outside [INT_MIN .. INT_MAX] has no value: [int_res] is
    [None] there. *)
Definition INT_MIN : Z := -32768.
Definition INT_MAX : Z := 32767.

Definition int_res (z : Z) : option Z :=
  if (INT_MIN <=? z) && (z <=? INT_MAX) then Some z else None.


(** ** The macros *)

(** [((p < NUM_ANALOG_INPUTS) ? (40-(p)) : -1)], on an [int] [p]. [None]
    when [40-(p)] overflows. *)
Definition analogInputToDigitalPin (p : Z) : option Z :=
  if p <? NUM_ANALOG_INPUTS then int_res (40 - p) else Some (-1).

(** [((p) == 4 || (p) == 5 || ... || (p) == 21)], [||] associating to the
    left. *)
Definition digitalPinHasPWM (p : Z) : cval :=
  c_or (c_or (c_or (c_or (c_or (c_or (c_or
    (c_eq p 4) (c_eq p 5)) (c_eq p 7)) (c_eq p 8))
    (c_eq p 18)) (c_eq p 19)) (c_eq p 20)) (c_eq p 21).

(** [(((p)>=1 && (p)<=8) || (((p)>=14 && (p)<=21) || (((p)>=22 && (p)<=29)
     || (((p)>=33 && (p)<=40)?(&PCICR):((uint8_t * )0)))))] *)
Definition digitalPinToPCICR (p : Z) : cval :=
  c_or (c_and (c_ge p 1) (c_le p 8))
    (c_or (c_and (c_ge p 14) (c_le p 21))
      (c_or (c_and (c_ge p 22) (c_le p 29))
        (c_cond (c_and (c_ge p 33) (c_le p 40)) (CPtr PCICR) CNull))).

(** [(((p)>=1 && (p)<=8)?1: (((p)>=14 && (p)<=21)?3:
     (((p)>=22 && (p)<=29)?2:0)))] *)
Definition digitalPinToPCICRbit (p : Z) : cval :=
  c_cond (c_and (c_ge p 1) (c_le p 8)) (CInt 1)
    (c_cond (c_and (c_ge p 14) (c_le p 21)) (CInt 3)
      (c_cond (c_and (c_ge p 22) (c_le p 29)) (CInt 2)
        (CInt 0))).

(** [(((p)<=8)?((p)-1):(((p)<=21)?((p)-14):(((p)<=29)?((p)-22):
     (abs((p)-40)))))] *)
Definition digitalPinToPCMSKbit (p : Z) : cval :=
  c_cond (c_le p 8) (CInt (p - 1))
    (c_cond (c_le p 21) (CInt (p - 14))
      (c_cond (c_le p 29) (CInt (p - 22))
        (CInt (Z.abs (p - 40))))).

(** [analogRead] in the core's wiring_analog.c, for the ATmega1284P, first
    maps a pin argument of 24 or more to an ADC channel:
    [if (pin >= 24) pin -= 24; // allow for channel or pin numbers]. *)
Definition analogRead_channel (pin : Z) : Z :=
  if 24 <=? pin then pin - 24 else pin.

(** ** Lemmas on the C operators *)

Lemma c_truth_bool b : c_truth (c_bool b) = b.
Proof. by destruct b. Qed.

(** [(p)>=lo && (p)<=hi] is the range test [between]. *)
Lemma c_range p lo hi : c_and (c_ge p lo) (c_le p hi) = c_bool (between lo hi p).
Proof.
  unfold c_and, c_ge, c_le, between. rewrite !c_truth_bool.
  by destruct (lo <=? p), (p <=? hi).
Qed.

Lemma c_eq_ne a b : a <> b -> c_eq a b = c_bool false.
Proof. intros. unfold c_eq. by rewrite (proj2 (Z.eqb_neq a b)). Qed.

#[export] Hint Rewrite c_truth_bool c_range : pins_rw.

(** Off the arrays ([p < 0] or [40 < p]) every range test of the macros
    fails. *)
Ltac macro_oob :=
  autorewrite with pins_rw; rewrite ?between_out by lia; reflexivity.

Lemma digitalPinToPCMSKbit_int p : exists z, digitalPinToPCMSKbit p = CInt z.
Proof.
  unfold digitalPinToPCMSKbit, c_cond.
  repeat case_match; eauto.
Qed.

(** ** PWM *)

(** C14: [digitalPinHasPWM] and the timer array agree. The macro is true
    for pin [p] exactly when [digital_pin_to_timer_PGM[p]] is a timer
    channel, for every integer [p]. *)
Theorem digitalPinHasPWM_timer_array p :
  c_truth (digitalPinHasPWM p) = true <->
  exists t, pgm_read digital_pin_to_timer_PGM p = Some t /\ t <> NOT_ON_TIMER.
Proof.
  rewrite Some_ne_iff.
  destruct (decide (0 <= p <= 40)).
  - range_decide_at p 0 40.
  - rewrite pgm_read_None by (rewrite (proj2 (proj2 pin_arrays_length)); lia).
    unfold digitalPinHasPWM. rewrite !(c_eq_ne p) by lia.
    split; [discriminate | intros [[? ?] _]; done].
Qed.

(** ** Analog inputs *)

(** C15: [analogInputToDigitalPin] maps analog input [a] (0..7) to the
    digital pin wired to ADC channel [a], that is to pin [PAa]. *)
Theorem analogInputToDigitalPin_adc a :
  0 <= a < NUM_ANALOG_INPUTS ->
  exists d, analogInputToDigitalPin a = Some d /\ pin_gpio d = adc_pin a.
Proof.
  intros Ha. unfold NUM_ANALOG_INPUTS in Ha.
  enough (from_option pin_gpio (Some (PortA, 99)) (analogInputToDigitalPin a) = adc_pin a /\
          is_Some (analogInputToDigitalPin a)) as [Hd [d Hs]]
    by (exists d; rewrite Hs in Hd; done).
  range_decide_at a 0 7.
Qed.

Lemma analogInputToDigitalPin_adc_witness :
  0 <= 3 < NUM_ANALOG_INPUTS /\
  exists d, analogInputToDigitalPin 3 = Some d /\ pin_gpio d = adc_pin 3.
Proof.
  split; [unfold NUM_ANALOG_INPUTS; lia|].
  apply analogInputToDigitalPin_adc. unfold NUM_ANALOG_INPUTS. lia.
Defined.

Lemma int_res_in z : INT_MIN <= z <= INT_MAX -> int_res z = Some z.
Proof.
  unfold int_res. intros Hz. rewrite (proj2 (Z.leb_le _ _)), (proj2 (Z.leb_le _ _)) by lia.
  done.
Qed.

Lemma int_res_out z : z < INT_MIN \/ INT_MAX < z -> int_res z = None.
Proof. unfold int_res. intros Hz. destruct (Z.leb_spec INT_MIN z), (Z.leb_spec z INT_MAX); lia || done. Qed.

(** C16: an [int] analog input outside 0..7 gives no pin. The macro
    returns [-1] only for inputs of 8 or more. A negative input [a] from
    [40 - INT_MAX] on gives [40 - a], a number above [NUM_DIGITAL_PINS]
    rather than [-1]. Below [40 - INT_MAX] (-32727) the subtraction
    [40-(p)] overflows the 16-bit [int], which C leaves undefined. *)
Theorem analogInputToDigitalPin_out_of_range a :
  INT_MIN <= a <= INT_MAX -> ~ (0 <= a < NUM_ANALOG_INPUTS) ->
  (forall d, analogInputToDigitalPin a = Some d -> pin_gpio d = None) /\
  (NUM_ANALOG_INPUTS <= a -> analogInputToDigitalPin a = Some (-1)) /\
  (40 - INT_MAX <= a < 0 ->
     analogInputToDigitalPin a = Some (40 - a) /\ NUM_DIGITAL_PINS < 40 - a) /\
  (a < 40 - INT_MAX -> analogInputToDigitalPin a = None).
Proof.
  unfold analogInputToDigitalPin, NUM_ANALOG_INPUTS, NUM_DIGITAL_PINS.
  intros Hint Ha. destruct (Z.ltb_spec a 8) as [Hlt | Hge].
  - assert (a < 0) by lia. unfold INT_MAX, INT_MIN in *. split_and!; try lia.
    + intros d Hd. destruct (decide (a < -32727)).
      * rewrite int_res_out in Hd; [done | unfold INT_MAX; lia].
      * rewrite int_res_in in Hd by (unfold INT_MAX, INT_MIN; lia).
        injection Hd as <-. apply pin_gpio_oob. lia.
    + intros. rewrite int_res_in by (unfold INT_MAX, INT_MIN; lia). split; [done | lia].
    + intros. apply int_res_out. unfold INT_MAX. lia.
  - unfold INT_MAX. split_and!; [intros d [= <-]; reflexivity | done | intros; lia.. ].
Qed.

Lemma analogInputToDigitalPin_out_of_range_witness :
  INT_MIN <= -1 <= INT_MAX /\ ~ (0 <= -1 < NUM_ANALOG_INPUTS) /\
  analogInputToDigitalPin (-1) = Some 41.
Proof.
  assert (Hi : INT_MIN <= -1 <= INT_MAX) by (unfold INT_MIN, INT_MAX; lia).
  assert (Hn : ~ (0 <= -1 < NUM_ANALOG_INPUTS)) by (unfold NUM_ANALOG_INPUTS; lia).
  split; [exact Hi|]. split; [exact Hn|].
  apply (analogInputToDigitalPin_out_of_range (-1) Hi Hn). unfold INT_MAX. lia.
Defined.

(** C17: the analog constants [A0] .. [A7] (24 .. 31) are not the digital
    pins of the analog inputs. [Ak] differs from
    [analogInputToDigitalPin k], and the pin [Ak] names is not [PAk]:
    [A0] .. [A5] are port C pins and [A6], [A7] are the supply pins 30 and 31.
    They work only as [analogRead] arguments, which the core reduces by 24
    to the channel [k]. *)
Theorem analog_constants_channels k a :
  analog_pin_constants !! k = Some a ->
  analogRead_channel a = Z.of_nat k /\
  Some a <> analogInputToDigitalPin (Z.of_nat k) /\
  pin_gpio a <> adc_pin (Z.of_nat k).
Proof.
  intros Hk.
  assert (Forall (fun ka => analogRead_channel ka.2 = Z.of_nat ka.1 /\
                            Some ka.2 <> analogInputToDigitalPin (Z.of_nat ka.1) /\
                            pin_gpio ka.2 <> adc_pin (Z.of_nat ka.1))
                 (imap pair analog_pin_constants)) as Hall.
  { apply (bool_decide_unpack _). vm_compute. reflexivity. }
  rewrite Forall_forall in Hall.
  apply (Hall (k, a)), list_elem_of_In, list_elem_of_lookup.
  exists k. by rewrite list_lookup_imap, Hk.
Qed.

Lemma analog_constants_channels_witness :
  analog_pin_constants !! 6%nat = Some A6 /\
  analogRead_channel A6 = 6 /\ Some A6 <> analogInputToDigitalPin 6 /\
  pin_gpio A6 <> adc_pin 6.
Proof.
  split; [reflexivity|]. apply (analog_constants_channels 6 A6). reflexivity.
Defined.

(** ** Pin-change interrupt macros *)

(** C18: [digitalPinToPCICR] is an [int] flag, never the address of
    [PCICR]. The outer [||] turns the [&PCICR] of the last branch into 1,
    so the macro is 1 for every pin with an I/O line and 0 for every other
    integer. A HAL client that writes through it ([*digitalPinToPCICR(p) |=
    ...]) dereferences an integer. *)
Theorem digitalPinToPCICR_int_flag p :
  digitalPinToPCICR p = CInt (if bool_decide (is_Some (pin_gpio p)) then 1 else 0).
Proof.
  destruct (decide (0 <= p <= 40)).
  - range_decide_at p 0 40.
  - rewrite pin_gpio_oob by lia. unfold digitalPinToPCICR. macro_oob.
Qed.

(** C19: for every pin with an I/O line, [digitalPinToPCICRbit] is the
    [PCICR] enable bit of the line's pin-change group: 1 for port B, 3 for
    port D, 2 for port C and 0 for port A. *)
Theorem digitalPinToPCICRbit_group p g :
  pin_gpio p = Some g -> digitalPinToPCICRbit p = CInt (pcint_group g.1).
Proof.
  intros Hg. pose proof (pin_gpio_range p g Hg).
  apply (option_fmap_Some_eq (pin_gpio p) (fun g => CInt (pcint_group g.1))); [done|].
  range_decide_at p 1 40.
Qed.

Lemma digitalPinToPCICRbit_group_witness :
  pin_gpio 18 = Some (PortD, 4) /\ digitalPinToPCICRbit 18 = CInt (pcint_group PortD).
Proof.
  split; [reflexivity|]. apply (digitalPinToPCICRbit_group 18 (PortD, 4)). reflexivity.
Defined.

(** C20: for every pin with an I/O line, [digitalPinToPCMSKbit] is the bit
    of the line within its port, which is its bit in the group's [PCMSK]
    register. For port A it counts down from pin 40 as the diagram does. *)
Theorem digitalPinToPCMSKbit_bit p g :
  pin_gpio p = Some g -> digitalPinToPCMSKbit p = CInt g.2.
Proof.
  intros Hg. pose proof (pin_gpio_range p g Hg).
  apply (option_fmap_Some_eq (pin_gpio p) (fun g => CInt g.2)); [done|].
  range_decide_at p 1 40.
Qed.

Lemma digitalPinToPCMSKbit_bit_witness :
  pin_gpio 34 = Some (PortA, 6) /\ digitalPinToPCMSKbit 34 = CInt 6.
Proof.
  split; [reflexivity|]. apply (digitalPinToPCMSKbit_bit 34 (PortA, 6)). reflexivity.
Defined.

(** C21: on the numbers in [0 .. NUM_DIGITAL_PINS] that have no I/O line
    (0, 9-13 and 30-32), [digitalPinToPCICR] is 0, but [digitalPinToPCICRbit]
    is 0 as well, which is port A's group bit. [digitalPinToPCMSKbit] is
    then negative (0 and 9-13) or above 7 (30-32). So [_BV] of it is
    undefined behaviour or names no pin of an 8-bit register. *)
Theorem pcint_macros_on_non_pins p :
  0 <= p <= NUM_DIGITAL_PINS -> pin_gpio p = None ->
  digitalPinToPCICR p = CInt 0 /\ digitalPinToPCICRbit p = CInt 0 /\
  exists z, digitalPinToPCMSKbit p = CInt z /\ (z < 0 \/ 7 < z).
Proof.
  intros Hp Hn. unfold NUM_DIGITAL_PINS in Hp.
  assert (pin_gpio p = None ->
          digitalPinToPCICR p = CInt 0 /\ digitalPinToPCICRbit p = CInt 0 /\
          digitalPinToPCMSKbit p ∉ CInt <$> seqZ 0 8) as Hdec
    by range_decide_at p 0 40.
  destruct (Hdec Hn) as (? & ? & Hbit). split_and!; [done | done |].
  destruct (digitalPinToPCMSKbit_int p) as [z Hz]. exists z. split; [done|].
  rewrite Hz, list_elem_of_fmap in Hbit.
  destruct (decide (0 <= z < 8)); [|lia]. destruct Hbit.
  exists z. rewrite elem_of_seqZ. split; [done | lia].
Qed.

Lemma pcint_macros_on_non_pins_witness :
  0 <= 0 <= NUM_DIGITAL_PINS /\ pin_gpio 0 = None /\
  digitalPinToPCICR 0 = CInt 0 /\ digitalPinToPCICRbit 0 = CInt 0 /\
  exists z, digitalPinToPCMSKbit 0 = CInt z /\ (z < 0 \/ 7 < z).
Proof.
  split; [unfold NUM_DIGITAL_PINS; lia|]. split; [reflexivity|].
  apply pcint_macros_on_non_pins; [unfold NUM_DIGITAL_PINS; lia | reflexivity].
Defined.
