(* ===== verification/MacroText.v ===== *)
(** * MacroText: the text of the macros and its tokens

    The replacement lists of the six function-like macros of lines 72-117,
    as strings that hold the source characters verbatim: tabs, the
    backslash line continuations, and the space after the backslash on
    line 109. [lex] is the part of the C preprocessor and lexer that the
    macros exercise. It splices a backslash followed by blanks and a
    newline, as GCC does (with a warning when blanks intervene). It skips
    white space and groups characters into numbers, identifiers and the
    punctuators of C. *)

From Stdlib Require Import String Ascii ZArith Lia.
From stdpp Require Import base list numbers decidable strings.
From S2P Require Import Prelude.

Open Scope Z_scope.

(** ** Tokens *)

Inductive token :=
  | TNum (n : Z) | TId (x : string)
  | TLPar | TRPar | TQuest | TColon | TAmp | TStar | TMinus | TPlus
  | TLt | TGt | TLe | TGe | TEqEq | TAndAnd | TOrOr.

#[export] Instance token_eq_dec : EqDecision token.
Proof. solve_decision. Defined.

(** ** Characters *)

Definition char_code (c : ascii) : Z := Z.of_nat (nat_of_ascii c).

Definition is_digit (c : ascii) : bool := (48 <=? char_code c) && (char_code c <=? 57).
Definition is_ident_start (c : ascii) : bool :=
  ((65 <=? char_code c) && (char_code c <=? 90)) ||
  ((97 <=? char_code c) && (char_code c <=? 122)) || (char_code c =? 95).
Definition is_ident_char (c : ascii) : bool := is_ident_start c || is_digit c.

Definition tab : ascii := ascii_of_nat 9.
Definition nl : ascii := ascii_of_nat 10.
Definition cr : ascii := ascii_of_nat 13.
Definition backslash : ascii := ascii_of_nat 92.

Definition is_blank (c : ascii) : bool :=
  (char_code c =? 32) || (char_code c =? 9) || (char_code c =? 13).

(** ** Scanning *)

(** The longest prefix of characters satisfying [f], and the rest. *)
Fixpoint span (f : ascii -> bool) (s : string) : string * string :=
  match s with
  | EmptyString => (EmptyString, EmptyString)
  | String c r => if f c then let '(a, b) := span f r in (String c a, b) else (EmptyString, s)
  end.

(** The value of a decimal digit string. *)
Fixpoint digits_value (acc : Z) (s : string) : Z :=
  match s with
  | EmptyString => acc
  | String c r => digits_value (10 * acc + (char_code c - 48)) r
  end.

(** After a backslash: blanks then a newline make a line splice. [None]
    for a stray backslash, which is not a C token. *)
Fixpoint after_splice (s : string) : option string :=
  match s with
  | String c r =>
      if decide (c = nl) then Some r
      else if is_blank c then after_splice r
      else None
  | EmptyString => None
  end.

(** A punctuator of two characters, then of one. *)
Definition punct2 (c1 c2 : ascii) : option token :=
  match char_code c1, char_code c2 with
  | 62, 61 => Some TGe | 60, 61 => Some TLe | 61, 61 => Some TEqEq
  | 38, 38 => Some TAndAnd | 124, 124 => Some TOrOr
  | _, _ => None
  end.

Definition punct1 (c : ascii) : option token :=
  match char_code c with
  | 40 => Some TLPar | 41 => Some TRPar | 63 => Some TQuest | 58 => Some TColon
  | 38 => Some TAmp | 42 => Some TStar | 45 => Some TMinus | 43 => Some TPlus
  | 60 => Some TLt | 62 => Some TGt
  | _ => None
  end.

(** [lex_fuel n s]: each round consumes at least one character, so
    [length s] rounds suffice ([lex] gives one more). *)
Fixpoint lex_fuel (fuel : nat) (s : string) : option (list token) :=
  match fuel with
  | O => None
  | S fuel =>
    match s with
    | EmptyString => Some []
    | String c r =>
      if is_blank c || bool_decide (c = nl) then lex_fuel fuel r
      else if decide (c = backslash) then
        r' ← after_splice r; lex_fuel fuel r'
      else if is_digit c then
        let '(ds, r') := span is_digit s in
        ts ← lex_fuel fuel r'; Some (TNum (digits_value 0 ds) :: ts)
      else if is_ident_start c then
        let '(x, r') := span is_ident_char s in
        ts ← lex_fuel fuel r'; Some (TId x :: ts)
      else
        match r with
        | String c2 r2 =>
          match punct2 c c2 with
          | Some t => ts ← lex_fuel fuel r2; Some (t :: ts)
          | None => t ← punct1 c; ts ← lex_fuel fuel r; Some (t :: ts)
          end
        | EmptyString => t ← punct1 c; Some [t]
        end
    end
  end.

Definition lex (s : string) : option (list token) := lex_fuel (S (String.length s)) s.

(** ** The replacement lists, verbatim *)

Local Open Scope string_scope.

Definition str1 (c : ascii) : string := String c EmptyString.
Definition tabs4 : string := str1 tab ++ str1 tab ++ str1 tab ++ str1 tab.
Definition bs_nl : string := str1 backslash ++ str1 nl.

(** Line 72. *)
Definition analogInputToDigitalPin_text : string :=
  "((p < NUM_ANALOG_INPUTS) ? (40-(p)) : -1)".

(** Line 74. *)
Definition digitalPinHasPWM_text : string :=
  "((p) == 4 || (p) == 5 || (p) == 7 || (p) == 8 || (p) == 18 || (p) == 19 || (p) == 20 || (p) == 21)".

(** Lines 106-110; line 109 ends with a backslash and a space. *)
Definition digitalPinToPCICR_text : string :=
  "(((p)>=1 && (p)<=8) || " ++ bs_nl ++
  tabs4 ++ "(((p)>=14 && (p)<=21) || " ++ bs_nl ++
  tabs4 ++ "  (((p)>=22 && (p)<=29) || " ++ bs_nl ++
  tabs4 ++ "    (((p)>=33 && (p)<=40)?(&PCICR):" ++ str1 backslash ++ " " ++ str1 nl ++
  tabs4 ++ "      ((uint8_t *)0)))))".

(** Lines 112-114. *)
Definition digitalPinToPCICRbit_text : string :=
  "(((p)>=1 && (p)<=8)?1:" ++ bs_nl ++
  tabs4 ++ "(((p)>=14 && (p)<=21)?3:" ++ bs_nl ++
  tabs4 ++ "  (((p)>=22 && (p)<=29)?2:0)))".

(** Line 116. *)
Definition digitalPinToPCMSK_text : string :=
  "(((p)>=1 && (p) <= 8) ? (&PCMSK2) : (((p)>=14 && (p) <= 21) ? (&PCMSK0) : (((p)>=22 &&(p) <= 29) ? (&PCMSK1) : (((p)>=33 && (p)<=40) : ((uint8_t *)0))))".

(** Line 117. *)
Definition digitalPinToPCMSKbit_text : string :=
  "(((p)<=8)?((p)-1):(((p)<=21)?((p)-14):(((p)<=29)?((p)-22):(abs((p)-40)))))".
