(* ===== verification/MacroSyntax.v ===== *)
(** * MacroSyntax: what the macro text means to a C compiler

    The tokens of a replacement list are parsed with the precedences of C:
    [?:] below [||] below [&&] below [&] below [==] below the relational
    operators below [+] and [-]. Unary [&], unary [-], the cast
    [(uint8_t * )] and calls come above those. The parser is a
    precedence-climbing descent on fuel. [eval] gives an expression its C
    value, as [Macros] models values: [&&], [||] and [?:] evaluate lazily,
    and [+], [-] and unary [-] have no value on 16-bit [int] overflow.
    [expand] is the preprocessor's substitution of an argument for the
    parameter [p] and of the object-like macro [NUM_ANALOG_INPUTS]. *)

From Stdlib Require Import String ZArith Lia.
From stdpp Require Import base list numbers decidable strings.
From S2P Require Import Prelude Avr PinsArduino Macros MacroText.

Open Scope Z_scope.

(** ** Abstract syntax *)

Inductive binop := OOrOr | OAndAnd | OBitAnd | OEqEq | OLt | OGt | OLe | OGe | OAdd | OSub.

Inductive expr :=
  | ENum (n : Z) | EVar (x : string) | EAddr (x : string) | ENeg (e : expr)
  | ECastPtr (e : expr) | ECall (f : string) (e : expr)
  | EBin (op : binop) (a b : expr)
  | ECond (c a b : expr).

(** Binary operators and their C precedence (higher binds tighter). *)
Definition binop_of (t : token) : option (binop * nat) :=
  match t with
  | TOrOr => Some (OOrOr, 1%nat) | TAndAnd => Some (OAndAnd, 2%nat)
  | TAmp => Some (OBitAnd, 3%nat) | TEqEq => Some (OEqEq, 4%nat)
  | TLt => Some (OLt, 5%nat) | TGt => Some (OGt, 5%nat)
  | TLe => Some (OLe, 5%nat) | TGe => Some (OGe, 5%nat)
  | TPlus => Some (OAdd, 6%nat) | TMinus => Some (OSub, 6%nat)
  | _ => None
  end.

(** ** Parser *)

(** [p_cond]: conditional-expression. [p_bin f m]: a binary expression
    whose operators have precedence [m] or more. [p_loop]: the operators
    that follow a left operand. [p_unary]: unary and primary expressions. *)
Fixpoint p_cond (fuel : nat) (ts : list token) {struct fuel} : option (expr * list token) :=
  match fuel with
  | O => None
  | S f =>
    '(c, ts1) ← p_bin f 1 ts;
    match ts1 with
    | TQuest :: ts2 =>
      '(a, ts3) ← p_cond f ts2;
      match ts3 with
      | TColon :: ts4 => '(b, ts5) ← p_cond f ts4; Some (ECond c a b, ts5)
      | _ => None
      end
    | _ => Some (c, ts1)
    end
  end
with p_bin (fuel : nat) (minp : nat) (ts : list token) {struct fuel} : option (expr * list token) :=
  match fuel with
  | O => None
  | S f => '(lhs, ts1) ← p_unary f ts; p_loop f minp lhs ts1
  end
with p_loop (fuel : nat) (minp : nat) (lhs : expr) (ts : list token) {struct fuel}
  : option (expr * list token) :=
  match fuel with
  | O => None
  | S f =>
    match ts with
    | t :: ts' =>
      match binop_of t with
      | Some (op, prec) =>
        if decide (minp <= prec)%nat then
          '(rhs, ts2) ← p_bin f (S prec) ts'; p_loop f minp (EBin op lhs rhs) ts2
        else Some (lhs, ts)
      | None => Some (lhs, ts)
      end
    | [] => Some (lhs, [])
    end
  end
with p_unary (fuel : nat) (ts : list token) {struct fuel} : option (expr * list token) :=
  match fuel with
  | O => None
  | S f =>
    match ts with
    | TAmp :: TId x :: ts' => Some (EAddr x, ts')
    | TMinus :: ts' => '(e, ts2) ← p_unary f ts'; Some (ENeg e, ts2)
    | TLPar :: TId x :: TStar :: TRPar :: ts' =>
      if String.eqb x "uint8_t" then '(e, ts2) ← p_unary f ts'; Some (ECastPtr e, ts2)
      else None
    | TLPar :: ts' =>
      '(e, ts2) ← p_cond f ts';
      match ts2 with TRPar :: ts3 => Some (e, ts3) | _ => None end
    | TNum n :: ts' => Some (ENum n, ts')
    | TId x :: TLPar :: ts' =>
      '(e, ts2) ← p_cond f ts';
      match ts2 with TRPar :: ts3 => Some (ECall x e, ts3) | _ => None end
    | TId x :: ts' => Some (EVar x, ts')
    | _ => None
    end
  end.

(** A whole token list is one expression, with nothing left over. *)
Definition parse (ts : list token) : option expr :=
  '(e, rest) ← p_cond (4 * length ts + 4) ts;
  match rest with [] => Some e | _ => None end.

(** ** Evaluation *)

Definition reg_of_name (x : string) : option IoReg :=
  if String.eqb x "PCICR" then Some PCICR
  else if String.eqb x "PCIFR" then Some PCIFR
  else if String.eqb x "PCMSK0" then Some PCMSK0
  else if String.eqb x "PCMSK1" then Some PCMSK1
  else if String.eqb x "PCMSK2" then Some PCMSK2
  else if String.eqb x "PCMSK3" then Some PCMSK3
  else None.

Definition int_of (v : cval) : option Z := match v with CInt z => Some z | _ => None end.

(** The operators on two [int]s. [+] and [-] have no value when they
    overflow the 16-bit [int] ([int_res]). *)
Definition arith (op : binop) (a b : Z) : option cval :=
  match op with
  | OBitAnd => Some (CInt (Z.land a b))
  | OEqEq => Some (c_eq a b)
  | OLt => Some (c_bool (a <? b))
  | OGt => Some (c_bool (b <? a))
  | OLe => Some (c_le a b)
  | OGe => Some (c_ge a b)
  | OAdd => CInt <$> int_res (a + b)
  | OSub => CInt <$> int_res (a - b)
  | OOrOr | OAndAnd => Some (c_or (CInt a) (CInt b))
  end.

(** [None] for what has no value here: an unknown name, arithmetic on a
    pointer, signed overflow, a cast of a non-zero integer to a pointer. *)
Fixpoint eval (env : string -> option cval) (e : expr) : option cval :=
  match e with
  | ENum n => Some (CInt n)
  | EVar x => env x
  | EAddr x => CPtr <$> reg_of_name x
  | ENeg e => z ← eval env e ≫= int_of; CInt <$> int_res (- z)
  | ECastPtr e => z ← eval env e ≫= int_of; if decide (z = 0) then Some CNull else None
  | ECall f e =>
    if String.eqb f "abs" then z ← eval env e ≫= int_of; Some (CInt (Z.abs z)) else None
  | EBin OAndAnd a b =>
    va ← eval env a;
    if c_truth va then vb ← eval env b; Some (c_bool (c_truth vb)) else Some (CInt 0)
  | EBin OOrOr a b =>
    va ← eval env a;
    if c_truth va then Some (CInt 1) else vb ← eval env b; Some (c_bool (c_truth vb))
  | EBin op a b =>
    za ← eval env a ≫= int_of; zb ← eval env b ≫= int_of; arith op za zb
  | ECond c a b => vc ← eval env c; if c_truth vc then eval env a else eval env b
  end.

(** ** Macro expansion *)

Definition object_macro (x : string) : option (list token) :=
  if String.eqb x "NUM_ANALOG_INPUTS" then Some [TNum 8]
  else if String.eqb x "NUM_DIGITAL_PINS" then Some [TNum 40]
  else None.

(** Each [p] of the body becomes the argument's tokens, and each
    object-like macro its replacement. *)
Definition expand (arg : list token) (body : list token) : list token :=
  body ≫= fun t =>
    match t with
    | TId x => if String.eqb x "p" then arg else default [t] (object_macro x)
    | _ => [t]
    end.

(** The value of [NAME(arg)] where the macro's replacement list is [text]
    and [env] gives the argument's variables their values. *)
Definition macro_call (text : string) (arg : list token) (env : string -> option cval)
  : option cval :=
  body ← lex text; e ← parse (expand arg body); eval env e.

(** The environment in which the variable [x] is the [int] [v]. *)
Definition var_env (x : string) (v : Z) (y : string) : option cval :=
  if String.eqb y x then Some (CInt v) else None.

(** [NAME(x)] with [x] an [int] variable of value [p]. *)
Definition macro_at (text : string) (p : Z) : option cval :=
  macro_call text [TId "x"] (var_env "x" p).

(** The last [:] of a token list, preceded by [ins]: how the missing
    [? (&REG)] of line 116's last branch would be inserted. *)
Fixpoint insert_before_last (t : token) (ins ts : list token) : list token :=
  match ts with
  | [] => []
  | u :: us =>
    if decide (u = t /\ t ∉ us) then ins ++ u :: us else u :: insert_before_last t ins us
  end.

(** [digitalPinToPCMSK(x)] with its last branch completed to
    [((x)>=33 && (x)<=40) ? (&r) : ((uint8_t * )0)] and the missing
    closing parenthesis appended. The name [r] is inserted after
    expansion, as a register name is neither [p] nor an object-like macro
    of the header. *)
Definition pcmsk_repaired_at (r : string) (p : Z) : option cval :=
  body ← lex digitalPinToPCMSK_text;
  e ← parse (insert_before_last TColon [TQuest; TLPar; TAmp; TId r; TRPar]
         (expand [TId "x"] body) ++ [TRPar]);
  eval (var_env "x" p) e.

(** Opening minus closing parentheses. *)
Definition paren_balance (ts : list token) : Z :=
  foldr (fun t n => match t with TLPar => n + 1 | TRPar => n - 1 | _ => n end) 0 ts.

(** ** Lemmas *)

(** Compute the tokens of a literal text and the parse of a token list,
    then the binds that they feed. *)
Ltac parse_text :=
  repeat (cbn [mbind option_bind];
    match goal with
    | |- context [lex ?t] =>
      let b := eval vm_compute in (lex t) in
      replace (lex t) with b by (vm_compute; reflexivity)
    | |- context [parse ?ts] =>
      let e := eval vm_compute in (parse ts) in
      replace (parse ts) with e by (vm_compute; reflexivity)
    end).

(** Case analysis on every comparison of the argument. *)
Ltac zcmp_cases :=
  repeat (cbn; match goal with
    | |- context [Z.leb ?a ?b] => destruct (Z.leb a b)
    | |- context [Z.ltb ?a ?b] => destruct (Z.ltb a b)
    | |- context [Z.eqb ?a ?b] => is_var a; destruct (Z.eqb a b)
    end).

(** ** Line 116 *)

(** C27: line 116 does not compile. Its replacement list opens one more
    parenthesis than it closes, and its last branch
    [(((p)>=33 && (p)<=40) : ((uint8_t * )0))] has a [:] with no [?]. So
    [digitalPinToPCMSK(x)] is not an expression, whatever the value of [x]. *)
Theorem digitalPinToPCMSK_ill_formed :
  (paren_balance <$> lex digitalPinToPCMSK_text) = Some 1 /\
  forall p, macro_at digitalPinToPCMSK_text p = None.
Proof.
  split; [reflexivity|]. intros p. unfold macro_at, macro_call. parse_text. reflexivity.
Qed.

Lemma pcmsk_repaired_at_spec r p :
  pcmsk_repaired_at r p =
    if between 1 8 p then Some (CPtr PCMSK2)
    else if between 14 21 p then Some (CPtr PCMSK0)
    else if between 22 29 p then Some (CPtr PCMSK1)
    else if between 33 40 p then CPtr <$> reg_of_name r
    else Some CNull.
Proof.
  unfold pcmsk_repaired_at, between. parse_text. zcmp_cases; reflexivity.
Qed.

(** The pins below 30 with an I/O line lie in three blocks, on ports B, D
    and C. *)
Lemma pin_block p g :
  pin_gpio p = Some g -> p <= 29 ->
  (between 1 8 p = true /\ g.1 = PortB) \/ (between 14 21 p = true /\ g.1 = PortD) \/
  (between 22 29 p = true /\ g.1 = PortC).
Proof.
  intros Hg Hp. pose proof (pin_gpio_range p g Hg).
  assert (pin_gpio p = None \/ (fun g => g.1) <$> pin_gpio p =
            Some (if between 1 8 p then PortB else if between 14 21 p then PortD else PortC))
    as Hport%(option_fmap_Some_eq _ _ _ g Hg) by range_decide_at p 1 29.
  assert (pin_gpio p = None \/ between 1 8 p || between 14 21 p || between 22 29 p = true)
    as [Hn | Hb] by range_decide_at p 1 29; [congruence|].
  rewrite <- Hport. destruct (between 1 8 p), (between 14 21 p), (between 22 29 p);
    simpl in Hb; try discriminate; intuition.
Qed.

(** C28: [digitalPinToPCMSK] names the wrong register for every pin of its
    first three branches, however its last branch is completed: pins 1-8
    (port B, group 1) get [PCMSK2], pins 14-21 (port D, group 3) get
    [PCMSK0] and pins 22-29 (port C, group 2) get [PCMSK1], and none is the
    mask register of the pin's pin-change group. *)
Theorem digitalPinToPCMSK_wrong_registers r p g :
  pin_gpio p = Some g -> p <= 29 ->
  exists reg, pcmsk_repaired_at r p = Some (CPtr reg) /\
    Some reg <> pcmsk_of_group (pcint_group g.1).
Proof.
  intros Hg Hp. rewrite pcmsk_repaired_at_spec, (between_out 33 40 p) by lia.
  destruct (pin_block p g Hg Hp) as [[-> ->] | [[Hb ->] | [Hb ->]]];
    rewrite ?Hb, ?(between_out 1 8 p), ?(between_out 14 21 p)
      by (apply between_spec in Hb; lia);
    eexists; (split; [reflexivity | by vm_compute]).
Qed.

Lemma digitalPinToPCMSK_wrong_registers_witness :
  pin_gpio 1 = Some (PortB, 0) /\
  exists reg, pcmsk_repaired_at "PCMSK3" 1 = Some (CPtr reg) /\
    Some reg <> pcmsk_of_group (pcint_group PortB).
Proof.
  split; [reflexivity|].
  apply (digitalPinToPCMSK_wrong_registers "PCMSK3" 1 (PortB, 0)); [reflexivity | lia].
Defined.

(** ** Argument hygiene *)

Lemma land_1_odd c : Z.land c 1 = if Z.odd c then 1 else 0.
Proof.
  change (Z.land c 1) with (Z.land c (Z.ones 1)). rewrite Z.land_ones by lia. apply Zmod_odd.
Qed.

(** C29: [analogInputToDigitalPin] does not parenthesise the [p] of its
    test [(p < NUM_ANALOG_INPUTS)]. Called with [ch & 7], the test is
    [ch & (7 < 8)], that is [ch & 1]: the macro gives -1 for every even
    [ch], where the channel [ch & 7] is always below 8 and its pin is
    [40 - (ch & 7)]. *)
Theorem analogInputToDigitalPin_unhygienic c :
  macro_call analogInputToDigitalPin_text [TId "ch"; TAmp; TNum 7] (var_env "ch" c) =
    Some (CInt (if Z.odd c then 40 - Z.land c 7 else -1)) /\
  analogInputToDigitalPin (Z.land c 7) = Some (40 - Z.land c 7).
Proof.
  assert (0 <= Z.land c 7 < 8) as Hl.
  { change (Z.land c 7) with (Z.land c (Z.ones 3)). rewrite Z.land_ones by lia.
    apply (Z.mod_pos_bound c (2 ^ 3)). lia. }
  unfold macro_call. parse_text. cbn. rewrite land_1_odd. split.
  - destruct (Z.odd c); [|reflexivity].
    rewrite int_res_in by (unfold INT_MIN, INT_MAX; lia). reflexivity.
  - unfold analogInputToDigitalPin, NUM_ANALOG_INPUTS.
    rewrite (proj2 (Z.ltb_lt _ _)), int_res_in by (unfold INT_MIN, INT_MAX; lia).
    reflexivity.
Qed.
