(* ===== verification/Hal.v ===== *)
(** * Hal: the core's digital I/O as a client of the variant's tables

    The Arduino core (wiring_digital.c, Arduino.h) reads the variant through
    fixed names: [digitalPinToPort], [digitalPinToBitMask],
    [digitalPinToTimer], [portModeRegister], [portOutputRegister] and
    [portInputRegister]. [PinVariant] is that interface, together with
    [pin_line], the I/O line each pin is meant to drive. [PinVariantOk]
    holds the laws the core relies on. The operations [pinMode],
    [digitalWrite] and [digitalRead] follow wiring_digital.c statement by
    statement on an explicit hardware state [hw]. Their theorems are proved
    against the laws only. [Cestino] instantiates the interface with the
    arrays of pins_arduino.h and discharges the laws from the theorems of
    [PinsArduino].

    The hardware state has four parts. The register file holds the DDRx and
    PORTx bytes. A set records the timer channels whose compare output is
    connected. The last two parts are the level applied from outside to each
    line and the current output of each timer channel. A read of PINx
    returns the level of each line: the line's PORTx bit for an output, the
    timer's output when a connected channel drives it, and the outside level
    for an input. [turnOffPWM] disconnects a channel. Clearing its COM bits
    in TCCRnA is modelled by removing it from the set. *)

From stdpp Require Import base list numbers decidable gmap.
From Stdlib Require Import ZArith Lia.
From S2P Require Import Prelude Avr PinsArduino Macros.

Open Scope Z_scope.

(** ** Arduino.h constants *)

Definition LOW : Z := 0.
Definition HIGH : Z := 1.
Definition INPUT : Z := 0.
Definition OUTPUT : Z := 1.
Definition INPUT_PULLUP : Z := 2.

(** ** The hardware state *)

Record hw := mk_hw {
  hw_regs : gmap Z Z;
  hw_pwm : gset Z;
  hw_ext : Gpio -> bool;
  hw_wave : Z -> bool;
}.

Definition reg (s : hw) (a : Z) : Z := default 0 (hw_regs s !! a).

Definition set_reg (a v : Z) (s : hw) : hw :=
  mk_hw (<[a := v]> (hw_regs s)) (hw_pwm s) (hw_ext s) (hw_wave s).

Definition turnOffPWM (t : Z) (s : hw) : hw :=
  mk_hw (hw_regs s) (hw_pwm s ∖ {[t]}) (hw_ext s) (hw_wave s).

(** The connected timer channel that drives line [g], if any. *)
Definition pwm_driver (s : hw) (g : Gpio) : option Z :=
  head (filter (fun t => oc_pin t = Some g) (elements (hw_pwm s))).

Definition pin_level (s : hw) (g : Gpio) : bool :=
  if Z.testbit (reg s (io_addr (DDRx g.1))) g.2 then
    match pwm_driver s g with
    | Some t => hw_wave s t
    | None => Z.testbit (reg s (io_addr (PORTx g.1))) g.2
    end
  else hw_ext s g.

Definition pin_byte (s : hw) (x : Port) : Z :=
  bits_of (fun b => pin_level s (x, b)) (seqZ 0 8).

(** A read of the I/O space: PINx is computed from the lines. Every other
    register reads back what was written. *)
Definition read_io (s : hw) (a : Z) : Z :=
  match list_find (fun x => io_addr (PINx x) = a) all_ports with
  | Some (_, x) => pin_byte s x
  | None => reg s a
  end.

(** [*a &= ~bit] and [*a |= bit] on a [volatile uint8_t *]. *)
Definition clear_bits (a bit : Z) (s : hw) : hw :=
  set_reg a (u8 (Z.land (read_io s a) (Z.lnot bit))) s.
Definition set_bits (a bit : Z) (s : hw) : hw :=
  set_reg a (u8 (Z.lor (read_io s a) bit)) s.

(** [if (timer != NOT_ON_TIMER) turnOffPWM(timer);] *)
Definition timer_off (timer : Z) (s : hw) : hw :=
  if decide (timer <> NOT_ON_TIMER) then turnOffPWM timer s else s.

(** ** The interface the variant promises *)

Class PinVariant := {
  digitalPinToPort : Z -> option Z;
  digitalPinToBitMask : Z -> option Z;
  digitalPinToTimer : Z -> option Z;
  portModeRegister : Z -> option Z;
  portOutputRegister : Z -> option Z;
  portInputRegister : Z -> option Z;
  pin_line : Z -> option Gpio;
}.

Class PinVariantOk `{PinVariant} : Prop := {
  pv_line_regs p x k :
    pin_line p = Some (x, k) ->
    0 <= k < 8 /\ digitalPinToBitMask p = Some (_BV k) /\
    is_Some (digitalPinToTimer p) /\
    exists c, digitalPinToPort p = Some c /\ c <> NOT_A_PIN /\
      portModeRegister c = Some (io_addr (DDRx x)) /\
      portOutputRegister c = Some (io_addr (PORTx x)) /\
      portInputRegister c = Some (io_addr (PINx x));
  pv_no_line p c :
    digitalPinToPort p = Some c -> pin_line p = None ->
    c = NOT_A_PIN /\ is_Some (digitalPinToBitMask p) /\ is_Some (digitalPinToTimer p);
  pv_line_timer p g t t' :
    pin_line p = Some g -> digitalPinToTimer p = Some t -> oc_pin t' = Some g -> t' = t;
  pv_timer_line p g t :
    pin_line p = Some g -> digitalPinToTimer p = Some t -> t <> NOT_ON_TIMER ->
    oc_pin t = Some g;
  pv_line_inj p q g : pin_line p = Some g -> pin_line q = Some g -> p = q;
}.

(** ** The core's operations (wiring_digital.c) *)
Section Core.
Context `{PinVariant}.

Definition pinMode (pin mode : Z) (s : hw) : option hw :=
  bit ← digitalPinToBitMask pin;
  port ← digitalPinToPort pin;
  if decide (port = NOT_A_PIN) then Some s else
  reg ← portModeRegister port;
  out ← portOutputRegister port;
  if decide (mode = INPUT) then Some (clear_bits out bit (clear_bits reg bit s))
  else if decide (mode = INPUT_PULLUP) then Some (set_bits out bit (clear_bits reg bit s))
  else Some (set_bits reg bit s).

Definition digitalWrite (pin val : Z) (s : hw) : option hw :=
  timer ← digitalPinToTimer pin;
  bit ← digitalPinToBitMask pin;
  port ← digitalPinToPort pin;
  if decide (port = NOT_A_PIN) then Some s else
  let s := timer_off timer s in
  out ← portOutputRegister port;
  if decide (val = LOW) then Some (clear_bits out bit s) else Some (set_bits out bit s).

Definition digitalRead (pin : Z) (s : hw) : option (Z * hw) :=
  timer ← digitalPinToTimer pin;
  bit ← digitalPinToBitMask pin;
  port ← digitalPinToPort pin;
  if decide (port = NOT_A_PIN) then Some (LOW, s) else
  let s := timer_off timer s in
  inp ← portInputRegister port;
  if decide (Z.land (read_io s inp) bit <> 0) then Some (HIGH, s) else Some (LOW, s).

End Core.

(** ** The abstract contract of the digital I/O operations

    Seen from one line [g], the state is a triple: its direction bit (DDRx),
    its output latch (PORTx), and whether a connected timer channel drives
    it. [pinMode] and [digitalWrite] change only the triple of the pin's own
    line, as below. *)
Definition ddr_bit (s : hw) (y : Port) (j : Z) : bool :=
  Z.testbit (reg s (io_addr (DDRx y))) j.
Definition out_bit (s : hw) (y : Port) (j : Z) : bool :=
  Z.testbit (reg s (io_addr (PORTx y))) j.

Definition line_view (s : hw) (g : Gpio) : bool * bool * bool :=
  (ddr_bit s g.1 g.2, out_bit s g.1 g.2, bool_decide (is_Some (pwm_driver s g))).

Definition spec_pinMode (mode : Z) (v : bool * bool * bool) : bool * bool * bool :=
  let '(d, o, w) := v in
  if decide (mode = INPUT) then (false, false, w)
  else if decide (mode = INPUT_PULLUP) then (false, true, w)
  else (true, o, w).

Definition spec_digitalWrite (val : Z) (v : bool * bool * bool) : bool * bool * bool :=
  let '(d, o, w) := v in (d, bool_decide (val <> LOW), false).

(** [digitalRead] disconnects the pin's timer as [digitalWrite] does, and
    keeps direction and latch. *)
Definition spec_digitalRead (v : bool * bool * bool) : bool * bool * bool :=
  let '(d, o, w) := v in (d, o, false).

(** The state after reset: every DDRx and PORTx is 0 (all lines inputs
    without pull-up), no timer output connected, every outside level low. *)
Definition hw_reset : hw := mk_hw ∅ ∅ (fun _ => false) (fun _ => false).

(** ** The Cestino variant *)
Module Cestino.

#[export] Instance cestino_variant : PinVariant := {
  digitalPinToPort := pgm_read digital_pin_to_port_PGM;
  digitalPinToBitMask := pgm_read digital_pin_to_bit_mask_PGM;
  digitalPinToTimer := pgm_read digital_pin_to_timer_PGM;
  portModeRegister := pgm_read port_to_mode_PGM;
  portOutputRegister := pgm_read port_to_output_PGM;
  portInputRegister := pgm_read port_to_input_PGM;
  pin_line := pin_gpio;
}.

Lemma port_code_not_sentinel x : port_code x <> NOT_A_PIN.
Proof. by destruct x. Qed.

Lemma cestino_line_regs p x k :
  pin_gpio p = Some (x, k) ->
  0 <= k < 8 /\ pgm_read digital_pin_to_bit_mask_PGM p = Some (_BV k) /\
  is_Some (pgm_read digital_pin_to_timer_PGM p) /\
  exists c, pgm_read digital_pin_to_port_PGM p = Some c /\ c <> NOT_A_PIN /\
    pgm_read port_to_mode_PGM c = Some (io_addr (DDRx x)) /\
    pgm_read port_to_output_PGM c = Some (io_addr (PORTx x)) /\
    pgm_read port_to_input_PGM c = Some (io_addr (PINx x)).
Proof.
  intros Hg. destruct (pin_gpio_Some_inv p x k Hg) as (Hc & Hm & Hk).
  pose proof (pgm_read_range _ _ _ Hc) as Hp.
  destruct pin_arrays_length as (Hl1 & Hl2 & Hl3). rewrite Hl1 in Hp.
  split; [done|]. split; [done|]. split.
  - apply pgm_read_is_Some. rewrite Hl3. lia.
  - exists (port_code x). split; [done|]. split; [apply port_code_not_sentinel|].
    destruct x; split_and!; reflexivity.
Qed.

Lemma cestino_no_line p c :
  pgm_read digital_pin_to_port_PGM p = Some c -> pin_gpio p = None ->
  c = NOT_A_PIN /\ is_Some (pgm_read digital_pin_to_bit_mask_PGM p) /\
  is_Some (pgm_read digital_pin_to_timer_PGM p).
Proof.
  intros Hc Hn. pose proof (pgm_read_range _ _ _ Hc) as Hp.
  destruct pin_arrays_length as (Hl1 & Hl2 & Hl3). rewrite Hl1 in Hp.
  split; [|rewrite !pgm_read_is_Some, Hl2, Hl3; lia].
  assert (pin_gpio p = None -> pgm_read digital_pin_to_port_PGM p = Some NOT_A_PIN)
    as Hdec by range_decide_at p 0 40.
  rewrite Hc in Hdec. specialize (Hdec Hn). congruence.
Qed.

Lemma cestino_line_timer p g t t' :
  pin_gpio p = Some g -> pgm_read digital_pin_to_timer_PGM p = Some t ->
  oc_pin t' = Some g -> t' = t.
Proof.
  intros Hg Ht Ho. pose proof (pin_gpio_range p g Hg). pose proof (oc_pin_range t' g Ho).
  assert (oc_pin t' = pin_gpio p -> is_Some (pin_gpio p) ->
          pgm_read digital_pin_to_timer_PGM p = Some t') as Hdec
    by range_decide_at2 p t' 1 40.
  rewrite Ho, Hg in Hdec. specialize (Hdec eq_refl ltac:(eauto)). congruence.
Qed.

Lemma cestino_timer_line p g t :
  pin_gpio p = Some g -> pgm_read digital_pin_to_timer_PGM p = Some t ->
  t <> NOT_ON_TIMER -> oc_pin t = Some g.
Proof.
  intros Hg Ht Hnt. pose proof (pin_gpio_range p g Hg).
  assert (pgm_read digital_pin_to_timer_PGM p = Some NOT_ON_TIMER \/
          oc_pin <$> pgm_read digital_pin_to_timer_PGM p = Some (pin_gpio p))
    as Hdec by range_decide_at p 1 40.
  rewrite Ht, Hg in Hdec. destruct Hdec as [[= ?] | [= ?]]; done.
Qed.

#[export] Instance cestino_variant_ok : PinVariantOk.
Proof.
  split; cbn.
  - exact cestino_line_regs.
  - exact cestino_no_line.
  - exact cestino_line_timer.
  - exact cestino_timer_line.
  - intros p q g Hp Hq.
    apply pin_gpio_line_pin in Hp, Hq. congruence.
Qed.

End Cestino.

(** ** The hardware model *)
Section Hardware.
Implicit Types (s : hw) (a v : Z) (g : Gpio) (x : Port).

Lemma reg_set_reg s a v b : reg (set_reg a v s) b = if decide (a = b) then v else reg s b.
Proof.
  unfold reg, set_reg. simpl. case_decide; subst.
  - by rewrite lookup_insert_eq.
  - by rewrite lookup_insert_ne.
Qed.

Lemma read_io_pin s x : read_io s (io_addr (PINx x)) = pin_byte s x.
Proof. by destruct x. Qed.

(** Direction and output registers read back what was written. *)
Lemma read_io_ddr s x : read_io s (io_addr (DDRx x)) = reg s (io_addr (DDRx x)).
Proof. by destruct x. Qed.

Lemma read_io_port s x : read_io s (io_addr (PORTx x)) = reg s (io_addr (PORTx x)).
Proof. by destruct x. Qed.

Lemma pin_byte_testbit s x k : 0 <= k < 8 -> Z.testbit (pin_byte s x) k = pin_level s (x, k).
Proof. intros Hk. unfold pin_byte. by rewrite bits_of_byte_testbit. Qed.

Lemma testbit_clear r k j :
  0 <= k -> 0 <= j -> Z.testbit (u8 (Z.land r (Z.lnot (_BV k)))) j =
  (j <? 8) && Z.testbit r j && negb (k =? j).
Proof.
  intros Hk Hj. rewrite u8_testbit, Z.land_spec, Z.lnot_spec, _BV_testbit by done.
  by rewrite andb_assoc.
Qed.

Lemma testbit_set r k j :
  0 <= k -> 0 <= j -> Z.testbit (u8 (Z.lor r (_BV k))) j =
  (j <? 8) && (Z.testbit r j || (k =? j)).
Proof. intros Hk Hj. by rewrite u8_testbit, Z.lor_spec, _BV_testbit. Qed.

(** The channel driving a line is the connected channel whose compare
    output is that line. There is at most one. *)
Lemma pwm_driver_Some s g t : pwm_driver s g = Some t <-> t ∈ hw_pwm s /\ oc_pin t = Some g.
Proof.
  unfold pwm_driver. split.
  - intros Ht%head_Some_elem_of. apply list_elem_of_filter in Ht as [? ?%elem_of_elements].
    done.
  - intros [Hin Hoc]. destruct (filter _ _) as [|t' l] eqn:E.
    + assert (t ∈ filter (fun t => oc_pin t = Some g) (elements (hw_pwm s))) as Hf.
      { apply list_elem_of_filter. split; [done|]. by apply elem_of_elements. }
      rewrite E in Hf. by apply not_elem_of_nil in Hf.
    + assert (t' ∈ filter (fun t => oc_pin t = Some g) (elements (hw_pwm s))) as Hf
        by (rewrite E; left).
      apply list_elem_of_filter in Hf as [Hoc' _]. simpl. f_equal.
      by eapply oc_pin_inj.
Qed.

Lemma pwm_driver_None s g : pwm_driver s g = None <-> forall t, t ∈ hw_pwm s -> oc_pin t <> Some g.
Proof.
  split.
  - intros Hn t Ht Hoc. assert (pwm_driver s g = Some t) as Hs
      by (apply pwm_driver_Some; done). congruence.
  - intros Hall. destruct (pwm_driver s g) as [t|] eqn:E; [|done].
    apply pwm_driver_Some in E as [Ht Hoc]. by destruct (Hall t Ht).
Qed.

Lemma pwm_driver_set_reg s a v g : pwm_driver (set_reg a v s) g = pwm_driver s g.
Proof. done. Qed.

(** Turning off channel [t] disconnects exactly the line [t] drives. *)
Lemma pwm_driver_turnOffPWM s t g :
  is_Some (pwm_driver (turnOffPWM t s) g) <-> is_Some (pwm_driver s g) /\ oc_pin t <> Some g.
Proof.
  split.
  - intros [t' Ht'%pwm_driver_Some]. simpl in Ht'. destruct Ht' as [Hin Hoc].
    apply elem_of_difference in Hin as [Hin Hne]. split.
    + exists t'. by apply pwm_driver_Some.
    + intros Hoc'. apply Hne, elem_of_singleton. by eapply oc_pin_inj.
  - intros [[t' Ht'%pwm_driver_Some] Hne]. destruct Ht' as [Hin Hoc].
    exists t'. apply pwm_driver_Some. simpl. split; [|done].
    apply elem_of_difference. split; [done|].
    rewrite elem_of_singleton. intros ->. done.
Qed.

Lemma reg_clear_bits s a k b :
  reg (clear_bits a k s) b = if decide (a = b) then u8 (Z.land (read_io s a) (Z.lnot k)) else reg s b.
Proof. apply reg_set_reg. Qed.

Lemma reg_set_bits s a k b :
  reg (set_bits a k s) b = if decide (a = b) then u8 (Z.lor (read_io s a) k) else reg s b.
Proof. apply reg_set_reg. Qed.

Lemma testbit_clear_bit r k j : 0 <= k -> 0 <= j < 8 ->
  Z.testbit (u8 (Z.land r (Z.lnot (_BV k)))) j = Z.testbit r j && negb (bool_decide (j = k)).
Proof.
  intros Hk Hj. rewrite testbit_clear by lia.
  replace (j <? 8) with true by (symmetry; apply Z.ltb_lt; lia).
  destruct (Z.eqb_spec k j); case_bool_decide; subst; done.
Qed.

Lemma testbit_set_bit r k j : 0 <= k -> 0 <= j < 8 ->
  Z.testbit (u8 (Z.lor r (_BV k))) j = Z.testbit r j || bool_decide (j = k).
Proof.
  intros Hk Hj. rewrite testbit_set by lia.
  replace (j <? 8) with true by (symmetry; apply Z.ltb_lt; lia).
  destruct (Z.eqb_spec k j); case_bool_decide; subst; done.
Qed.

Lemma bool_decide_pair_eq (x : Port) (j k : Z) :
  bool_decide ((x, j) = (x, k)) = bool_decide (j = k).
Proof. apply bool_decide_ext. split; [by intros [=] | by intros ->]. Qed.

(** The four read-modify-write cases: the bit of line [(x, k)] in the
    written register changes, every other bit of every register stays. *)
Ltac rmw_bit :=
  let Ha := fresh "Ha" in
  intros; unfold ddr_bit, out_bit;
  rewrite ?reg_clear_bits, ?reg_set_bits, ?read_io_ddr, ?read_io_port;
  case_decide as Ha;
  [ apply io_addr_inj in Ha; simplify_eq;
    rewrite ?testbit_clear_bit, ?testbit_set_bit, bool_decide_pair_eq by lia; done
  | rewrite bool_decide_false by congruence; rewrite ?andb_true_r, ?orb_false_r; done ].

Lemma ddr_bit_clear_ddr s x k y j : 0 <= k -> 0 <= j < 8 ->
  ddr_bit (clear_bits (io_addr (DDRx x)) (_BV k) s) y j =
  ddr_bit s y j && negb (bool_decide ((y, j) = (x, k))).
Proof. rmw_bit. Qed.

Lemma ddr_bit_set_ddr s x k y j : 0 <= k -> 0 <= j < 8 ->
  ddr_bit (set_bits (io_addr (DDRx x)) (_BV k) s) y j =
  ddr_bit s y j || bool_decide ((y, j) = (x, k)).
Proof. rmw_bit. Qed.

Lemma out_bit_clear_out s x k y j : 0 <= k -> 0 <= j < 8 ->
  out_bit (clear_bits (io_addr (PORTx x)) (_BV k) s) y j =
  out_bit s y j && negb (bool_decide ((y, j) = (x, k))).
Proof. rmw_bit. Qed.

Lemma out_bit_set_out s x k y j : 0 <= k -> 0 <= j < 8 ->
  out_bit (set_bits (io_addr (PORTx x)) (_BV k) s) y j =
  out_bit s y j || bool_decide ((y, j) = (x, k)).
Proof. rmw_bit. Qed.

Lemma out_bit_rmw_ddr s x k y j :
  out_bit (clear_bits (io_addr (DDRx x)) k s) y j = out_bit s y j /\
  out_bit (set_bits (io_addr (DDRx x)) k s) y j = out_bit s y j.
Proof.
  unfold out_bit. rewrite reg_clear_bits, reg_set_bits.
  split; case_decide as Ha; try (apply io_addr_inj in Ha; discriminate); done.
Qed.

Lemma ddr_bit_rmw_out s x k y j :
  ddr_bit (clear_bits (io_addr (PORTx x)) k s) y j = ddr_bit s y j /\
  ddr_bit (set_bits (io_addr (PORTx x)) k s) y j = ddr_bit s y j.
Proof.
  unfold ddr_bit. rewrite reg_clear_bits, reg_set_bits.
  split; case_decide as Ha; try (apply io_addr_inj in Ha; discriminate); done.
Qed.

Lemma pwm_driver_rmw s a k g :
  pwm_driver (clear_bits a k s) g = pwm_driver s g /\
  pwm_driver (set_bits a k s) g = pwm_driver s g.
Proof. done. Qed.

Lemma bits_turnOffPWM s t y j :
  ddr_bit (turnOffPWM t s) y j = ddr_bit s y j /\ out_bit (turnOffPWM t s) y j = out_bit s y j.
Proof. done. Qed.

Lemma bits_timer_off s t y j :
  ddr_bit (timer_off t s) y j = ddr_bit s y j /\ out_bit (timer_off t s) y j = out_bit s y j.
Proof. unfold timer_off. by case_decide. Qed.

Lemma gpio_ok_range y j : gpio_ok (y, j) = true -> 0 <= j < 8.
Proof. unfold gpio_ok. simpl. rewrite andb_true_iff, Z.leb_le, Z.ltb_lt. done. Qed.

End Hardware.

(** ** The operations against the contract *)
#[local] Arguments io_addr : simpl never.

Section Refinement.
Context `{PinVariantOk}.

(** Push [ddr_bit], [out_bit] and [pwm_driver] through the writes of an
    operation. *)
Ltac rmw_rewrite :=
  repeat progress (
    rewrite ?(proj1 (pwm_driver_rmw _ _ _ _)), ?(proj2 (pwm_driver_rmw _ _ _ _));
    rewrite ?(proj1 (ddr_bit_rmw_out _ _ _ _ _)), ?(proj2 (ddr_bit_rmw_out _ _ _ _ _)),
      ?(proj1 (out_bit_rmw_ddr _ _ _ _ _)), ?(proj2 (out_bit_rmw_ddr _ _ _ _ _)),
      ?(proj1 (bits_timer_off _ _ _ _)), ?(proj2 (bits_timer_off _ _ _ _));
    rewrite ?ddr_bit_clear_ddr, ?ddr_bit_set_ddr, ?out_bit_clear_out, ?out_bit_set_out
      by lia).

(** Compare a line's new view with the contract: the pin's own line
    [(x, k)] against the [spec_*] function, every other line against its
    old view. *)
Ltac view_cases :=
  let Hyk := fresh "Hyk" in
  unfold fupd; case_decide as Hyk;
  [ simplify_eq; rewrite ?bool_decide_pair_eq, ?(bool_decide_true (_ = _) eq_refl)
  | rewrite ?(bool_decide_false _ Hyk) ];
  simpl; rewrite ?andb_true_r, ?orb_false_r, ?andb_false_r, ?orb_true_r; try done.

(** [pinMode] implements its contract. For a pin with line [g] it
    succeeds and changes only [g]'s direction and latch. [INPUT] clears both
    bits, [INPUT_PULLUP] clears the direction and sets the latch, and any
    other mode sets the direction. Every other line, the connected timers
    and the outside levels are unchanged. *)
Lemma pinMode_contract p g mode s :
  pin_line p = Some g ->
  exists s', pinMode p mode s = Some s' /\ hw_pwm s' = hw_pwm s /\ hw_ext s' = hw_ext s /\
    forall h, gpio_ok h = true ->
      line_view s' h = fupd (line_view s) g (spec_pinMode mode (line_view s g)) h.
Proof.
  intros Hl. destruct g as [x k].
  destruct (pv_line_regs p x k Hl) as ([Hk0 Hk8] & Hm & _ & c & Hc & Hnc & Hmr & Hor & _).
  unfold pinMode. rewrite Hm, Hc. simpl. rewrite decide_False by done. rewrite Hmr, Hor. simpl.
  unfold spec_pinMode.
  repeat case_decide; (eexists; split; [reflexivity|]); (split; [done|]); (split; [done|]);
    intros [y j] Hh%gpio_ok_range; unfold line_view; simpl;
    rmw_rewrite; view_cases.
Qed.

(** The disconnection of the pin's timer removes the drive of exactly the
    pin's own line. Its channel's compare output is that line, and when the
    pin is not on a timer no connected channel drives the line. *)
Lemma pwm_flag_timer_off p x k t s h :
  pin_line p = Some (x, k) -> digitalPinToTimer p = Some t ->
  bool_decide (is_Some (pwm_driver (timer_off t s) h)) =
  bool_decide (is_Some (pwm_driver s h)) && negb (bool_decide (h = (x, k))).
Proof.
  intros Hl Ht. unfold timer_off. case_decide as Hnt.
  - pose proof (pv_timer_line p (x, k) t Hl Ht Hnt) as Hoc.
    rewrite <- bool_decide_not, <- bool_decide_and. apply bool_decide_ext.
    rewrite pwm_driver_turnOffPWM, Hoc.
    split; intros [? Hne]; split; try done; congruence.
  - destruct (decide (h = (x, k))) as [->|Hne].
    + rewrite (bool_decide_true ((x, k) = (x, k))), andb_false_r by done.
      apply bool_decide_eq_false_2.
      intros [t' [_ Hoc]%pwm_driver_Some].
      pose proof (pv_line_timer p (x, k) t t' Hl Ht Hoc) as ->.
      destruct (decide (t = NOT_ON_TIMER)) as [->|]; [discriminate | done].
    + rewrite (bool_decide_false (h = _)) by done. by rewrite andb_true_r.
Qed.

(** [digitalWrite] implements its contract. For a pin with line [g]
    it succeeds, disconnects the timer that drives [g] (if any), and sets
    [g]'s latch to [val <> LOW]. [g]'s direction and every other line are
    unchanged. *)
Lemma digitalWrite_contract p g val s :
  pin_line p = Some g ->
  exists s', digitalWrite p val s = Some s' /\ hw_ext s' = hw_ext s /\
    forall h, gpio_ok h = true ->
      line_view s' h = fupd (line_view s) g (spec_digitalWrite val (line_view s g)) h.
Proof.
  intros Hl. destruct g as [x k].
  destruct (pv_line_regs p x k Hl) as ([Hk0 Hk8] & Hm & [t Ht] & c & Hc & Hnc & _ & Hor & _).
  unfold digitalWrite. rewrite Ht, Hm, Hc. simpl. rewrite decide_False by done.
  rewrite Hor. simpl. unfold spec_digitalWrite.
  case_decide as Hv; (eexists; split; [reflexivity|]); (split; [by unfold timer_off; case_decide|]);
    intros [y j] Hh%gpio_ok_range; unfold line_view; simpl;
    rewrite (proj1 (pwm_driver_rmw _ _ _ _)) || rewrite (proj2 (pwm_driver_rmw _ _ _ _));
    rewrite (pwm_flag_timer_off p x k t s) by done;
    rmw_rewrite; view_cases; by rewrite (bool_decide_true _ Hv).
Qed.

(** [digitalRead] implements its contract. For a pin with line [g]
    it disconnects [g]'s timer as [digitalWrite] does, leaves all
    directions and latches unchanged, and returns [HIGH] exactly when line
    [g] is at level 1 in the resulting state. *)
Lemma digitalRead_contract p g s :
  pin_line p = Some g ->
  exists s', digitalRead p s = Some (if pin_level s' g then HIGH else LOW, s') /\
    hw_ext s' = hw_ext s /\
    forall h, gpio_ok h = true ->
      line_view s' h = fupd (line_view s) g (spec_digitalRead (line_view s g)) h.
Proof.
  intros Hl. destruct g as [x k].
  destruct (pv_line_regs p x k Hl) as ([Hk0 Hk8] & Hm & [t Ht] & c & Hc & Hnc & _ & _ & Hir).
  unfold digitalRead. rewrite Ht, Hm, Hc. simpl. rewrite decide_False by done.
  rewrite Hir. simpl. exists (timer_off t s). split; [|split].
  - rewrite read_io_pin.
    destruct (pin_level (timer_off t s) (x, k)) eqn:E; case_decide as Hb; try done.
    + exfalso. refine (proj2 (land_BV_nonzero _ k _) _ Hb); [lia|].
      by rewrite pin_byte_testbit by lia.
    + rewrite land_BV_nonzero, pin_byte_testbit in Hb by lia. congruence.
  - by unfold timer_off; case_decide.
  - intros [y j] Hh%gpio_ok_range. unfold line_view, spec_digitalRead. simpl.
    rewrite (pwm_flag_timer_off p x k t s) by done. rmw_rewrite. view_cases.
Qed.

(** ** Reading a line back *)

Lemma pin_level_output s g o : line_view s g = (true, o, false) -> pin_level s g = o.
Proof.
  unfold line_view, pin_level, ddr_bit, out_bit. intros [= Hd Ho Hw]. rewrite Hd.
  destruct (pwm_driver s g) eqn:E; [|done].
  apply bool_decide_eq_false_1 in Hw. by destruct Hw.
Qed.

Lemma pin_level_input s g o w : line_view s g = (false, o, w) -> pin_level s g = hw_ext s g.
Proof. unfold line_view, pin_level, ddr_bit. intros [= Hd _ _]. by rewrite Hd. Qed.

Lemma pin_line_gpio_ok p g : pin_line p = Some g -> gpio_ok g = true.
Proof.
  destruct g as [x k]. intros Hl. destruct (pv_line_regs p x k Hl) as (Hk & _).
  unfold gpio_ok. simpl. apply andb_true_iff. rewrite Z.leb_le, Z.ltb_lt. done.
Qed.

(** After [pinMode(p, OUTPUT)] and [digitalWrite(p, val)], [digitalRead(p)]
    returns [LOW] exactly when [val] is [LOW]. *)
Lemma read_after_write_contract p g val s s1 s2 :
  pin_line p = Some g -> pinMode p OUTPUT s = Some s1 -> digitalWrite p val s1 = Some s2 ->
  exists s3, digitalRead p s2 = Some (if decide (val = LOW) then LOW else HIGH, s3).
Proof.
  intros Hl E1 E2. pose proof (pin_line_gpio_ok p g Hl) as Hg.
  destruct (pinMode_contract p g OUTPUT s Hl) as (s1' & E1' & _ & _ & V1).
  destruct (digitalWrite_contract p g val s1 Hl) as (s2' & E2' & _ & V2).
  destruct (digitalRead_contract p g s2 Hl) as (s3 & E3 & _ & V3).
  simplify_eq. exists s3. rewrite E3.
  specialize (V1 g Hg). specialize (V2 g Hg). specialize (V3 g Hg).
  rewrite fupd_eq in V1, V2, V3. rewrite V2, V1 in V3.
  destruct (line_view s g) as [[d o] w]. simpl in V3.
  rewrite (pin_level_output _ _ _ V3). by case_decide; case_bool_decide.
Qed.

(** After [pinMode(p, INPUT)], [digitalRead(p)] returns the level applied
    from outside to the pin's line. *)
Lemma read_input_contract p g s s1 :
  pin_line p = Some g -> pinMode p INPUT s = Some s1 ->
  exists s2, digitalRead p s1 = Some (if hw_ext s g then HIGH else LOW, s2).
Proof.
  intros Hl E1. pose proof (pin_line_gpio_ok p g Hl) as Hg.
  destruct (pinMode_contract p g INPUT s Hl) as (s1' & E1' & _ & Hext1 & V1).
  destruct (digitalRead_contract p g s1 Hl) as (s2 & E2 & Hext2 & V2).
  simplify_eq. exists s2. rewrite E2.
  specialize (V1 g Hg). specialize (V2 g Hg). rewrite fupd_eq in V1, V2.
  rewrite V1 in V2. destruct (line_view s g) as [[d o] w]. simpl in V2.
  by rewrite (pin_level_input _ _ _ _ V2), Hext2, Hext1.
Qed.

End Refinement.

(** ** The core on the Cestino board *)
Import Cestino.

(** C22: with the Cestino tables, [pinMode] implements its contract for
    every pin with an I/O line [g]. It changes only [g]'s direction and
    latch: [INPUT] clears both, [INPUT_PULLUP] clears the direction and sets
    the latch, and [OUTPUT] sets the direction. The other 31 lines, the timer
    connections and the outside levels are unchanged. *)
Theorem cestino_pinMode_refines p g mode s :
  pin_gpio p = Some g ->
  exists s', pinMode p mode s = Some s' /\ hw_pwm s' = hw_pwm s /\ hw_ext s' = hw_ext s /\
    forall h, gpio_ok h = true ->
      line_view s' h = fupd (line_view s) g (spec_pinMode mode (line_view s g)) h.
Proof. apply (@pinMode_contract cestino_variant _). Qed.

Lemma cestino_pinMode_refines_witness :
  pin_gpio 5 = Some (PortB, 4) /\
  exists s', pinMode 5 OUTPUT hw_reset = Some s' /\ hw_pwm s' = hw_pwm hw_reset /\
    hw_ext s' = hw_ext hw_reset /\
    forall h, gpio_ok h = true ->
      line_view s' h =
      fupd (line_view hw_reset) (PortB, 4) (spec_pinMode OUTPUT (line_view hw_reset (PortB, 4))) h.
Proof. split; [reflexivity|]. apply cestino_pinMode_refines. reflexivity. Defined.

(** C23: with the Cestino tables, [digitalWrite] implements its contract
    for every pin with an I/O line [g]. It disconnects the PWM output that
    drives [g], if any, and sets [g]'s latch to [val <> LOW]. [g]'s
    direction and every other line are unchanged. *)
Theorem cestino_digitalWrite_refines p g val s :
  pin_gpio p = Some g ->
  exists s', digitalWrite p val s = Some s' /\ hw_ext s' = hw_ext s /\
    forall h, gpio_ok h = true ->
      line_view s' h = fupd (line_view s) g (spec_digitalWrite val (line_view s g)) h.
Proof. apply (@digitalWrite_contract cestino_variant _). Qed.

Lemma cestino_digitalWrite_refines_witness :
  pin_gpio 21 = Some (PortD, 7) /\
  exists s', digitalWrite 21 HIGH hw_reset = Some s' /\ hw_ext s' = hw_ext hw_reset /\
    forall h, gpio_ok h = true ->
      line_view s' h =
      fupd (line_view hw_reset) (PortD, 7) (spec_digitalWrite HIGH (line_view hw_reset (PortD, 7))) h.
Proof. split; [reflexivity|]. apply cestino_digitalWrite_refines. reflexivity. Defined.

(** C24: with the Cestino tables, [digitalRead] implements its contract for
    every pin with an I/O line [g]. It disconnects [g]'s PWM output, keeps
    every direction and latch, and returns [HIGH] exactly when [g] is at
    level 1 in the resulting state. *)
Theorem cestino_digitalRead_refines p g s :
  pin_gpio p = Some g ->
  exists s', digitalRead p s = Some (if pin_level s' g then HIGH else LOW, s') /\
    hw_ext s' = hw_ext s /\
    forall h, gpio_ok h = true ->
      line_view s' h = fupd (line_view s) g (spec_digitalRead (line_view s g)) h.
Proof. apply (@digitalRead_contract cestino_variant _). Qed.

Lemma cestino_digitalRead_refines_witness :
  pin_gpio 40 = Some (PortA, 0) /\
  exists s', digitalRead 40 hw_reset = Some (if pin_level s' (PortA, 0) then HIGH else LOW, s') /\
    hw_ext s' = hw_ext hw_reset /\
    forall h, gpio_ok h = true ->
      line_view s' h =
      fupd (line_view hw_reset) (PortA, 0) (spec_digitalRead (line_view hw_reset (PortA, 0))) h.
Proof. split; [reflexivity|]. apply cestino_digitalRead_refines. reflexivity. Defined.

(** C25: on every Cestino pin with an I/O line, [pinMode(p, OUTPUT)] then
    [digitalWrite(p, val)] then [digitalRead(p)] reads back [LOW] exactly
    when [val] is [LOW]. This holds from any state, even when a PWM output
    drove the pin before. *)
Theorem cestino_read_after_write p g val s s1 s2 :
  pin_gpio p = Some g -> pinMode p OUTPUT s = Some s1 -> digitalWrite p val s1 = Some s2 ->
  exists s3, digitalRead p s2 = Some (if decide (val = LOW) then LOW else HIGH, s3).
Proof. apply (@read_after_write_contract cestino_variant _). Qed.

Lemma cestino_read_after_write_witness :
  exists s1 s2, pin_gpio 18 = Some (PortD, 4) /\ pinMode 18 OUTPUT hw_reset = Some s1 /\
    digitalWrite 18 HIGH s1 = Some s2 /\
    exists s3, digitalRead 18 s2 = Some (if decide (HIGH = LOW) then LOW else HIGH, s3).
Proof.
  eexists _, _. split; [reflexivity|]. split; [reflexivity|]. split; [reflexivity|].
  eapply (cestino_read_after_write 18 (PortD, 4) HIGH hw_reset); reflexivity.
Defined.

(** C26: on every Cestino pin with an I/O line, after [pinMode(p, INPUT)]
    [digitalRead(p)] returns the level applied to the line from outside. *)
Theorem cestino_read_input p g s s1 :
  pin_gpio p = Some g -> pinMode p INPUT s = Some s1 ->
  exists s2, digitalRead p s1 = Some (if hw_ext s g then HIGH else LOW, s2).
Proof. apply (@read_input_contract cestino_variant _). Qed.

Lemma cestino_read_input_witness :
  exists s1, pin_gpio 33 = Some (PortA, 7) /\ pinMode 33 INPUT hw_reset = Some s1 /\
    exists s2, digitalRead 33 s1 = Some (if hw_ext hw_reset (PortA, 7) then HIGH else LOW, s2).
Proof.
  eexists. split; [reflexivity|]. split; [reflexivity|].
  eapply (cestino_read_input 33 (PortA, 7) hw_reset); reflexivity.
Defined.
